(** * ZstdProcessor (zstd.js): a shallow embedding and its properties

    The class [ZstdProcessor] of [zstd.js] wraps an external Zstandard codec
    ([@oneidentity/zstd-js]).  The codec itself is not part of the program:
    it is a record of three functions that either return bytes or throw.
    Everything the class does around it (option defaults, chunking loop,
    progress callback, output assembly, metrics, error wrapping) is modelled
    below as the source has it.

    Conventions of the model.
    - A [Uint8Array] is a [list byte]; its [length] is read as a [Z].
    - Integer JavaScript numbers are [Z] (exact below 2^53); the results of
      the floating point operations of the program ([/] and [-] on times) are
      rationals rounded by an abstract rounding function [rnd].
    - [throw new Error(msg)] is the outcome [Thrown], with the error's class
      name and message.
    - The [for] loop of [streamCompress] runs on fuel; [OutOfFuel] is the
      outcome of a run that needs more iterations than the fuel given.
    - One call runs at a time: nothing is interleaved at the [await] of
      [streamCompress]; the yield is recorded in the log only.  A progress
      callback returns or throws; it does not call back into the
      processor. *)

From Stdlib Require Import List ZArith QArith Qminmax Lia String Bool Sorted.
From Stdlib Require Import Strings.Byte.
Import ListNotations.

Set Implicit Arguments.

Local Open Scope string_scope.
Local Open Scope list_scope.
Local Open Scope Z_scope.

(** ** Bytes and the JavaScript primitives the class uses *)

Definition bytes : Type := list byte.

(** [a.length] *)
Definition jsLength {A : Type} (a : list A) : Z := Z.of_nat (List.length a).

(** [%TypedArray%.prototype.slice(start, end)]: a negative index counts from
    the end, both indices are clamped to [0, length], and an empty range
    gives an empty array. *)
Definition jsSlice {A : Type} (a : list A) (start finish : Z) : list A :=
  let len := jsLength a in
  let k := if start <? 0 then Z.max (len + start) 0 else Z.min start len in
  let final :=
    if finish <? 0 then Z.max (len + finish) 0 else Z.min finish len in
  firstn (Z.to_nat (final - k)) (skipn (Z.to_nat k) a).

(** [x || 1] on a number: [0] is falsy. *)
Definition jsOr1 (x : Z) : Z := if x =? 0 then 1 else x.

(** The value of a destructured option with a default: [{ f = d } = options]. *)
Definition withDefault {A : Type} (d : A) (o : option A) : A :=
  match o with Some a => a | None => d end.

(** A thrown value: the class name of the error and its message. *)
Record JsError : Type := mkError { errName : string; errMessage : string }.

(** [new Error(msg)] *)
Definition newError (msg : string) : JsError := mkError "Error" msg.

(** ** The external codec *)

(** The dictionary argument of a codec call: the call sites either leave it
    out or pass [this.dictionary], which is [null] until a dictionary is
    created. *)
Inductive DictArg : Type :=
| DictOmitted
| DictPassed (d : option bytes).

(** The part of the object returned by [ZstdInit()] that the class uses.
    [inl e] is a call that throws [e]. *)
Record ZstdCodec : Type := mkCodec {
  ZstdSimple_compress : bytes -> Z -> DictArg -> JsError + bytes;
  ZstdStream_compress : bytes -> Z -> bool -> DictArg -> JsError + bytes;
  ZstdStream_decompress : bytes -> DictArg -> JsError + bytes
}.

(** ** The processor and the world around it *)

Record Metrics : Type := mkMetrics {
  compressionTime : Q;
  decompressionTime : Q;
  originalSize : Z;
  compressedSize : Z
}.

Record ZstdProcessor : Type := mkProcessor {
  codec : option ZstdCodec;
  dictionary : option bytes;
  performanceMetrics : Metrics
}.

(** What a call does that is visible outside the processor. *)
Inductive Event : Type :=
| ConsoleLog (msg : string) (arg : option Z)
| SimpleCompressCall (data : bytes) (level : Z) (d : DictArg)
| StreamCompressCall (chunk : bytes) (level : Z) (d : DictArg)
| StreamDecompressCall (data : bytes) (d : DictArg)
| Progress (fraction : Q) (compressedChunkLength : Z)
| Yield.

(** [this], the number of [performance.now()] readings taken so far and the
    log of events, oldest first. *)
Record World : Type := mkWorld {
  self : ZstdProcessor;
  clock : nat;
  log : list Event
}.

Inductive Outcome (A : Type) : Type :=
| Returned (a : A)
| Thrown (e : JsError)
| OutOfFuel.

Arguments Returned {A} a.
Arguments Thrown {A} e.
Arguments OutOfFuel {A}.

(** A method body: a state transformer that returns, throws or runs out of
    fuel.  The world persists through a throw. *)
Definition M (A : Type) : Type := World -> Outcome A * World.

Definition ret {A : Type} (a : A) : M A := fun w => (Returned a, w).

Definition throw {A : Type} (e : JsError) : M A := fun w => (Thrown e, w).

Definition outOfFuel {A : Type} : M A := fun w => (OutOfFuel, w).

Definition bind {A B : Type} (m : M A) (k : A -> M B) : M B :=
  fun w =>
    match m w with
    | (Returned a, w') => k a w'
    | (Thrown e, w') => (Thrown e, w')
    | (OutOfFuel, w') => (OutOfFuel, w')
    end.

(** [try { body } catch (error) { handler(error) }] *)
Definition tryCatch {A : Type} (body : M A) (handler : JsError -> M A) : M A :=
  fun w =>
    match body w with
    | (Thrown e, w') => handler e w'
    | r => r
    end.

Declare Scope js_scope.
Delimit Scope js_scope with js.

Notation "x <- m ;; k" := (bind m (fun x => k))
  (at level 100, m at next level, right associativity) : js_scope.
Notation "m ;;; k" := (bind m (fun _ => k))
  (at level 100, right associativity) : js_scope.

Local Open Scope js_scope.

Definition getSelf : M ZstdProcessor := fun w => (Returned (self w), w).

Definition putSelf (p : ZstdProcessor) : M unit :=
  fun w => (Returned tt, mkWorld p (clock w) (log w)).

Definition emit (e : Event) : M unit :=
  fun w => (Returned tt, mkWorld (self w) (clock w) (log w ++ [e])).

(** A function of the codec that returns or throws. *)
Definition liftCall {A : Type} (r : JsError + A) : M A :=
  match r with
  | inr a => ret a
  | inl e => throw e
  end.

Definition setCodec (c : ZstdCodec) (p : ZstdProcessor) : ZstdProcessor :=
  mkProcessor (Some c) (dictionary p) (performanceMetrics p).

Definition setDictionary (d : bytes) (p : ZstdProcessor) : ZstdProcessor :=
  mkProcessor (codec p) (Some d) (performanceMetrics p).

Definition setMetrics (m : Metrics) (p : ZstdProcessor) : ZstdProcessor :=
  mkProcessor (codec p) (dictionary p) m.

(** [typedArray.set(source, offset)]: overwrites [source.length] elements
    from [offset]; a source that does not fit throws a [RangeError]. *)
Definition typedArraySet (target source : bytes) (offset : Z)
    : JsError + bytes :=
  if (offset <? 0) || (jsLength target <? offset + jsLength source)
  then inl (mkError "RangeError" "offset is out of bounds")
  else inr (firstn (Z.to_nat offset) target ++ source
            ++ skipn (Z.to_nat (offset + jsLength source)) target).

(** [new Uint8Array(n)] *)
Definition newUint8Array (n : Z) : bytes := repeat x00 (Z.to_nat n).

(** ** The class *)

(** [options] of [compressWithProgress]: an absent property takes the default
    of the destructuring pattern. *)
Record CompressionOptions : Type := mkOptions {
  level : option Z;
  useStream : option bool;
  useDictionary : option bool;
  chunkSize : option Z
}.

(** A progress callback: it is handed the fraction and the length of the
    compressed chunk, and returns ([None]) or throws ([Some e]).  It does
    nothing else: a callback that calls the processor's methods or writes
    to the input while a call is running is outside this model, and so is
    any other code run at the [await] of the loop. *)
Definition Callback : Type := Q -> Z -> option JsError.

(** The object [getMetrics] returns. *)
Record MetricsSnapshot : Type := mkSnapshot {
  snapCompressionTime : Q;
  snapDecompressionTime : Q;
  snapOriginalSize : Z;
  snapCompressedSize : Z;
  compressionRatio : Q
}.

(** [constructor()] *)
Definition newZstdProcessor : ZstdProcessor :=
  mkProcessor None None (mkMetrics 0 0 0 0).

Section Processor.

(** Rounding of a real result to a double. *)
Variable rnd : Q -> Q.

(** The successive readings of [performance.now()]. *)
Variable perf_now : nat -> Q.

(** What [await ZstdInit()] gives. *)
Variable ZstdInit : JsError + ZstdCodec.

(** [a / b] on numbers holding integers *)
Definition jsDiv (a b : Z) : Q := rnd (inject_Z a / inject_Z b).

(** [a - b] on numbers *)
Definition jsSub (a b : Q) : Q := rnd (a - b).

Definition performanceNow : M Q :=
  fun w =>
    (Returned (perf_now (clock w)), mkWorld (self w) (S (clock w)) (log w)).

(** [this.codec.<member>]: reading a member of [null] throws. *)
Definition withCodec {A : Type} (f : ZstdCodec -> M A) : M A :=
  p <- getSelf ;;
  match codec p with
  | Some c => f c
  | None => throw (mkError "TypeError" "Cannot read properties of null")
  end.

Definition callSimpleCompress (data : bytes) (level : Z) (d : DictArg)
    : M bytes :=
  withCodec (fun c =>
    emit (SimpleCompressCall data level d) ;;;
    liftCall (ZstdSimple_compress c data level d)).

Definition callStreamCompress (chunk : bytes) (level : Z) (d : DictArg)
    : M bytes :=
  withCodec (fun c =>
    emit (StreamCompressCall chunk level d) ;;;
    liftCall (ZstdStream_compress c chunk level true d)).

Definition callStreamDecompress (data : bytes) (d : DictArg) : M bytes :=
  withCodec (fun c =>
    emit (StreamDecompressCall data d) ;;;
    liftCall (ZstdStream_decompress c data d)).

Definition invokeCallback (cb : Callback) (progress : Q) (n : Z) : M unit :=
  emit (Progress progress n) ;;;
  match cb progress n with
  | Some e => throw e
  | None => ret tt
  end.

Definition init : M unit :=
  tryCatch
    (c <- liftCall ZstdInit ;;
     p <- getSelf ;;
     putSelf (setCodec c p) ;;;
     emit (ConsoleLog "ZSTD library initialized successfully" None))
    (fun error =>
       throw (newError ("Failed to initialize ZSTD: " ++ errMessage error))).

Definition createDictionary (sampleData : bytes) : M (option bytes) :=
  p <- getSelf ;;
  putSelf (setDictionary
             (jsSlice sampleData 0 (Z.min (jsLength sampleData) 1024)) p) ;;;
  p <- getSelf ;;
  emit (ConsoleLog "Created dictionary of size:"
          (option_map (fun d => jsLength d) (dictionary p))) ;;;
  p <- getSelf ;;
  ret (dictionary p).

(** The [for] loop of [streamCompress], from the test [i < data.length]. *)
Fixpoint streamLoop (fuel : nat) (data : bytes) (level : Z)
    (useDictionary : bool) (chunkSize : Z)
    (progressCallback : option Callback)
    (i : Z) (chunks : list bytes) : M (list bytes) :=
  match fuel with
  | O => outOfFuel
  | S fuel' =>
      if i <? jsLength data then
        let chunk := jsSlice data i (i + chunkSize) in
        compressedChunk <-
          (if useDictionary
           then p <- getSelf ;;
                callStreamCompress chunk level (DictPassed (dictionary p))
           else callStreamCompress chunk level DictOmitted) ;;
        let chunks' := chunks ++ [compressedChunk] in
        match progressCallback with
        | Some cb =>
            let progress :=
              Qmin (jsDiv (i + chunkSize) (jsLength data)) 1 in
            invokeCallback cb progress (jsLength compressedChunk)
        | None => ret tt
        end ;;;
        emit Yield ;;;
        streamLoop fuel' data level useDictionary chunkSize
          progressCallback (i + chunkSize) chunks'
      else ret chunks
  end.

(** [chunks.reduce((sum, chunk) => sum + chunk.length, 0)] *)
Definition totalLength (chunks : list bytes) : Z :=
  fold_left (fun sum chunk => sum + jsLength chunk) chunks 0.

(** The loop [for (const chunk of chunks)] that copies into [result]. *)
Fixpoint copyChunks (chunks : list bytes) (result : bytes) (offset : Z)
    : JsError + bytes :=
  match chunks with
  | [] => inr result
  | chunk :: rest =>
      match typedArraySet result chunk offset with
      | inl e => inl e
      | inr result' => copyChunks rest result' (offset + jsLength chunk)
      end
  end.

Definition streamCompress (fuel : nat) (data : bytes) (level : Z)
    (useDictionary : bool) (chunkSize : Z)
    (progressCallback : option Callback) : M bytes :=
  chunks <- streamLoop fuel data level useDictionary chunkSize
              progressCallback 0 [] ;;
  liftCall (copyChunks chunks (newUint8Array (totalLength chunks)) 0).

Definition setCompressionTime (t : Q) : M unit :=
  p <- getSelf ;;
  let m := performanceMetrics p in
  putSelf (setMetrics (mkMetrics t (decompressionTime m) (originalSize m)
                         (compressedSize m)) p).

Definition setDecompressionTime (t : Q) : M unit :=
  p <- getSelf ;;
  let m := performanceMetrics p in
  putSelf (setMetrics (mkMetrics (compressionTime m) t (originalSize m)
                         (compressedSize m)) p).

Definition setOriginalSize (n : Z) : M unit :=
  p <- getSelf ;;
  let m := performanceMetrics p in
  putSelf (setMetrics (mkMetrics (compressionTime m) (decompressionTime m) n
                         (compressedSize m)) p).

Definition setCompressedSize (n : Z) : M unit :=
  p <- getSelf ;;
  let m := performanceMetrics p in
  putSelf (setMetrics (mkMetrics (compressionTime m) (decompressionTime m)
                         (originalSize m) n) p).

Definition compressWithProgress (fuel : nat) (data : bytes)
    (options : CompressionOptions) (progressCallback : option Callback)
    : M bytes :=
  let level := withDefault 5 (level options) in
  let useStream := withDefault false (useStream options) in
  let useDictionary := withDefault false (useDictionary options) in
  let chunkSize := withDefault (1024 * 1024) (chunkSize options) in
  p <- getSelf ;;
  match codec p with
  | None => throw (newError "ZSTD not initialized")
  | Some _ =>
      startTime <- performanceNow ;;
      tryCatch
        (compressedData <-
           (if useStream
            then streamCompress fuel data level useDictionary chunkSize
                   progressCallback
            else if useDictionary
                 then p <- getSelf ;;
                      callSimpleCompress data level
                        (DictPassed (dictionary p))
                 else callSimpleCompress data level DictOmitted) ;;
         now <- performanceNow ;;
         setCompressionTime (jsSub now startTime) ;;;
         setOriginalSize (jsLength data) ;;;
         setCompressedSize (jsLength compressedData) ;;;
         ret compressedData)
        (fun error =>
           throw (newError ("Compression failed: " ++ errMessage error)))
  end.

Definition decompress (compressedData : bytes) (useDictionary : option bool)
    : M bytes :=
  let useDictionary := withDefault false useDictionary in
  p <- getSelf ;;
  match codec p with
  | None => throw (newError "ZSTD not initialized")
  | Some _ =>
      startTime <- performanceNow ;;
      tryCatch
        (decompressedData <-
           (if useDictionary
            then p <- getSelf ;;
                 callStreamDecompress compressedData
                   (DictPassed (dictionary p))
            else callStreamDecompress compressedData DictOmitted) ;;
         now <- performanceNow ;;
         setDecompressionTime (jsSub now startTime) ;;;
         ret decompressedData)
        (fun error =>
           throw (newError ("Decompression failed: " ++ errMessage error)))
  end.

Definition getMetrics (p : ZstdProcessor) : MetricsSnapshot :=
  let m := performanceMetrics p in
  mkSnapshot (compressionTime m) (decompressionTime m) (originalSize m)
    (compressedSize m)
    (jsDiv (originalSize m) (jsOr1 (compressedSize m))).

End Processor.

(** ** Concrete codecs and worlds, for evaluating the class *)

(** A codec that stores: every function returns its input. *)
Definition storeCodec : ZstdCodec :=
  mkCodec (fun data _ _ => inr data)
          (fun data _ _ _ => inr data)
          (fun data _ => inr data).

(** A codec that writes one marker byte in front of the data and, to
    decompress, checks and removes it. *)
Definition markerDecompress (data : bytes) : JsError + bytes :=
  match data with
  | x5a :: rest => inr rest
  | _ => inl (newError "Unknown frame descriptor")
  end.

Definition markerCodec : ZstdCodec :=
  mkCodec (fun data _ _ => inr (x5a :: data))
          (fun data _ _ _ => inr (x5a :: data))
          (fun data _ => markerDecompress data).

(** A codec whose every call throws. *)
Definition failingCodec : ZstdCodec :=
  mkCodec (fun _ _ _ => inl (newError "Src size is incorrect"))
          (fun _ _ _ _ => inl (newError "Src size is incorrect"))
          (fun _ _ => inl (newError "Src size is incorrect")).

(** No rounding, and a clock that advances by one millisecond a reading. *)
Definition exactRnd : Q -> Q := fun q => q.
Definition tickClock : nat -> Q := fun n => inject_Z (Z.of_nat n).

(** A new processor before [init()]. *)
Definition freshWorld : World := mkWorld newZstdProcessor 0 [].

(** A new processor after an [init()] that loaded the codec [c]. *)
Definition readyWorld (c : ZstdCodec) : World :=
  snd (init (inr c) freshWorld).

Definition streamOptions (cs : Z) : CompressionOptions :=
  mkOptions None (Some true) None (Some cs).

Definition noThrow : Callback := fun _ _ => None.

Definition dictionaryOptions (cs : Z) : CompressionOptions :=
  mkOptions None None (Some true) (Some cs).

(** ** Vocabulary for stating what a call does

    The definitions of this part are not in the source: they name the
    things the statements below speak of. *)

(** The dictionary argument the call sites choose. *)
Definition dictArgOf (useDictionary : bool) (p : ZstdProcessor) : DictArg :=
  if useDictionary then DictPassed (dictionary p) else DictOmitted.

(** The options of a call, with the defaults filled in. *)
Definition levelOf (o : CompressionOptions) : Z := withDefault 5 (level o).

Definition streaming (o : CompressionOptions) : bool :=
  withDefault false (useStream o).

Definition usesDictionary (o : CompressionOptions) : bool :=
  withDefault false (useDictionary o).

Definition chunkSizeOf (o : CompressionOptions) : Z :=
  withDefault (1024 * 1024) (chunkSize o).

(** The world with [evs] added to its log. *)
Definition appendLog (w : World) (evs : list Event) : World :=
  mkWorld (self w) (clock w) (log w ++ evs).

(** The world after a reading of the clock. *)
Definition tick (w : World) : World :=
  mkWorld (self w) (S (clock w)) (log w).

(** The fraction reported by the iteration that starts at offset [i]. *)
Definition progressAt (rnd : Q -> Q) (data : bytes) (cs i : Z) : Q :=
  Qmin (jsDiv rnd (i + cs) (jsLength data)) 1.

(** The events of the iterations that start at offset [i] and produce the
    compressed chunks [ccs], one iteration for each. *)
Fixpoint loopEvents (rnd : Q -> Q) (data : bytes) (lvl cs : Z)
    (cb : option Callback) (d : DictArg) (i : Z) (ccs : list bytes)
    : list Event :=
  match ccs with
  | [] => []
  | cc :: rest =>
      StreamCompressCall (jsSlice data i (i + cs)) lvl d
      :: match cb with
         | Some _ => [Progress (progressAt rnd data cs i) (jsLength cc)]
         | None => []
         end
      ++ Yield :: loopEvents rnd data lvl cs cb d (i + cs) rest
  end.

(** [ccs] are the compressed chunks of a run of the loop from offset [i] to
    its exit: the loop test holds before each of them and fails after the
    last, the codec returned each from its chunk, and the callback
    returned. *)
Fixpoint loopRun (rnd : Q -> Q) (data : bytes) (lvl cs : Z)
    (cb : option Callback) (c : ZstdCodec) (d : DictArg) (i : Z)
    (ccs : list bytes) : Prop :=
  match ccs with
  | [] => jsLength data <= i
  | cc :: rest =>
      i < jsLength data
      /\ ZstdStream_compress c (jsSlice data i (i + cs)) lvl true d = inr cc
      /\ (forall f, cb = Some f ->
                    f (progressAt rnd data cs i) (jsLength cc) = None)
      /\ loopRun rnd data lvl cs cb c d (i + cs) rest
  end.

(** The statement of [compressWithProgress] that produces the compressed
    data, with the options resolved. *)
Definition compressCore (rnd : Q -> Q) (fuel : nat) (data : bytes)
    (options : CompressionOptions) (cb : option Callback) : M bytes :=
  fun w =>
    let lvl := withDefault 5 (level options) in
    let d := dictArgOf (withDefault false (useDictionary options)) (self w) in
    if withDefault false (useStream options)
    then streamCompress rnd fuel data lvl
           (withDefault false (useDictionary options))
           (withDefault (1024 * 1024) (chunkSize options)) cb w
    else callSimpleCompress data lvl d w.

(** The processor once the three metrics of a compression are written. *)
Definition recordCompression (t : Q) (n m : Z) (p : ZstdProcessor)
    : ZstdProcessor :=
  setMetrics (mkMetrics t (decompressionTime (performanceMetrics p)) n m) p.

(** The chunks handed to the codec's stream compressor, in call order. *)
Fixpoint codecChunks (evs : list Event) : list bytes :=
  match evs with
  | [] => []
  | StreamCompressCall chunk _ _ :: rest => chunk :: codecChunks rest
  | _ :: rest => codecChunks rest
  end.

(** The arguments of the callback invocations, in call order. *)
Fixpoint progressReports (evs : list Event) : list (Q * Z) :=
  match evs with
  | [] => []
  | Progress fraction n :: rest => (fraction, n) :: progressReports rest
  | _ :: rest => progressReports rest
  end.

(** The number of calls of either compressor of the codec. *)
Fixpoint compressCalls (evs : list Event) : nat :=
  match evs with
  | [] => O
  | SimpleCompressCall _ _ _ :: rest => S (compressCalls rest)
  | StreamCompressCall _ _ _ :: rest => S (compressCalls rest)
  | _ :: rest => compressCalls rest
  end.

Definition sumZ (l : list Z) : Z := fold_right Z.add 0 l.

(** [n] successive slices of [data] of width [cs], from offset [i]. *)
Fixpoint chunksFrom (data : bytes) (cs : Z) (n : nat) (i : Z) : list bytes :=
  match n with
  | O => []
  | S n' => jsSlice data i (i + cs) :: chunksFrom data cs n' (i + cs)
  end.

(** [chunks] is the partition of [data] into slices of width [cs]: in order
    they spell [data]; the [k]-th is the slice of [data] that starts at
    [k * cs]; all but the last are [cs] long and the last is not empty and
    at most [cs] long; a non-empty input no longer than [cs] is one chunk
    and an empty input is none. *)
Definition partitionOf (data : bytes) (cs : Z) (chunks : list bytes) : Prop :=
  List.concat chunks = data
  /\ (forall k : nat,
        (k < List.length chunks)%nat ->
        nth k chunks [] = jsSlice data (Z.of_nat k * cs) (Z.of_nat k * cs + cs))
  /\ (forall k : nat,
        (S k < List.length chunks)%nat -> jsLength (nth k chunks []) = cs)
  /\ (forall k : nat,
        S k = List.length chunks -> 0 < jsLength (nth k chunks []) <= cs)
  /\ (data <> [] -> jsLength data <= cs -> List.length chunks = 1%nat)
  /\ (data = [] -> chunks = []).

(** The reports of one call: there is one at least, the fractions never
    decrease, the last one is 1, and the reported lengths add up to the
    length of the output. *)
Definition progressWellFormed (reports : list (Q * Z)) (out : bytes) : Prop :=
  reports <> []
  /\ Sorted Qle (map fst reports)
  /\ (last (map fst reports) 0 == 1)%Q
  /\ sumZ (map snd reports) = jsLength out.

Definition byteOfZ (z : Z) : byte :=
  match Byte.of_N (Z.to_N (z mod 256)) with
  | Some b => b
  | None => x00
  end.

(** Written from the specification, which has no counterpart in the source:
    a length as a 4-byte little-endian integer. *)
Definition le32 (n : Z) : bytes :=
  [byteOfZ n; byteOfZ (n / 256); byteOfZ (n / 65536); byteOfZ (n / 16777216)].

(** Written from the specification: a frame is the compressed bytes of a
    chunk behind their length, and the container is the frames in order. *)
Definition frame (cc : bytes) : bytes := le32 (jsLength cc) ++ cc.

Definition framedStream (ccs : list bytes) : bytes :=
  List.concat (map frame ccs).

(** The output of a streaming call is [assemble] of the compressed chunks:
    when the call returns, the codec was handed the partition of the input,
    one call a chunk, and the output is [assemble] applied to what the codec
    returned for them, in that order. *)
Definition streamOutputIs (assemble : list bytes -> bytes)
    (rnd : Q -> Q) (perf_now : nat -> Q) (fuel : nat) (data : bytes)
    (options : CompressionOptions) (cb : option Callback) (w : World) : Prop :=
  let r := compressWithProgress rnd perf_now fuel data options cb w in
  forall out : bytes,
    fst r = Returned out ->
    exists (c : ZstdCodec) (evs : list Event) (ccs : list bytes),
      codec (self w) = Some c
      /\ log (snd r) = log w ++ evs
      /\ partitionOf data (chunkSizeOf options) (codecChunks evs)
      /\ Forall2
           (fun chunk cc =>
              ZstdStream_compress c chunk (levelOf options) true
                (dictArgOf (usesDictionary options) (self w)) = inr cc)
           (codecChunks evs) ccs
      /\ out = assemble ccs.

(** Written from the specification: the length that the first four bytes of
    a buffer declare, read as a little-endian integer. *)
Definition declaredLength (buf : bytes) : option Z :=
  match buf with
  | b0 :: b1 :: b2 :: b3 :: _ =>
      Some (Z.of_N (Byte.to_N b0) + 256 * Z.of_N (Byte.to_N b1)
            + 65536 * Z.of_N (Byte.to_N b2) + 16777216 * Z.of_N (Byte.to_N b3))
  | _ => None
  end.

(** Written from the specification: the prefix declares more bytes than
    the buffer has behind it. *)
Definition prefixOverruns (buf : bytes) : Prop :=
  match declaredLength buf with
  | Some n => jsLength buf - 4 < n
  | None => False
  end.

(** The codec's stream decompressor undoes each of its compressors. *)
Definition codecInverts (c : ZstdCodec) (lvl : Z) (d : DictArg) : Prop :=
  (forall x y : bytes,
     ZstdSimple_compress c x lvl d = inr y ->
     ZstdStream_decompress c y d = inr x)
  /\ (forall x y : bytes,
        ZstdStream_compress c x lvl true d = inr y ->
        ZstdStream_decompress c y d = inr x).

(** The codec's frames are self-delimiting: decompressing compressed chunks
    laid end to end gives the chunks laid end to end (and the empty buffer
    gives the empty buffer). *)
Definition codecSelfDelimiting (c : ZstdCodec) (lvl : Z) (d : DictArg) : Prop :=
  forall xs ys : list bytes,
    Forall2 (fun x y => ZstdStream_compress c x lvl true d = inr y) xs ys ->
    ZstdStream_decompress c (List.concat ys) d = inr (List.concat xs).

(** The worlds a new processor can be in before its first call of
    [compressWithProgress] or [decompress]: only [init] and
    [createDictionary] have run, any number of times. *)
Inductive setupOnly (ZstdInit : JsError + ZstdCodec) : World -> Prop :=
| setup_new : forall (k : nat) (l : list Event),
    setupOnly ZstdInit (mkWorld newZstdProcessor k l)
| setup_init : forall w : World,
    setupOnly ZstdInit w -> setupOnly ZstdInit (snd (init ZstdInit w))
| setup_dictionary : forall (w : World) (sample : bytes),
    setupOnly ZstdInit w -> setupOnly ZstdInit (snd (createDictionary sample w)).

(** Every field of a snapshot is zero. *)
Definition snapshotZero (s : MetricsSnapshot) : Prop :=
  snapCompressionTime s = 0%Q
  /\ snapDecompressionTime s = 0%Q
  /\ snapOriginalSize s = 0
  /\ snapCompressedSize s = 0
  /\ (compressionRatio s == 0)%Q.

(** ** The example runner *)

(** [a < b] on numbers *)
Definition jsLt (a b : Q) : bool := negb (Qle_bool b a).

(** [a[i] = v] on a [Uint8Array]: the value is stored modulo 256, and a
    store outside the array does nothing. *)
Definition typedArrayStore (a : bytes) (i : Z) (v : Z) : bytes :=
  if (0 <=? i) && (i <? jsLength a)
  then firstn (Z.to_nat i) a ++ byteOfZ v :: skipn (S (Z.to_nat i)) a
  else a.

(** [a[i]] on a [Uint8Array]: [undefined] ([None]) outside the array. *)
Definition typedArrayGet (a : bytes) (i : Z) : option byte :=
  if i <? 0 then None else nth_error a (Z.to_nat i).

(** [byte === v] where [v] is an element read or [undefined] *)
Definition strictEqual (b : byte) (v : option byte) : bool :=
  match v with
  | Some b' => Byte.eqb b b'
  | None => false
  end.

(** [a.every((x, i) => predicate(x, i))], from index [i] on: it stops at the
    first element the predicate rejects. *)
Fixpoint everyFrom {A : Type} (predicate : A -> Z -> bool) (a : list A)
    (i : Z) : bool :=
  match a with
  | [] => true
  | x :: rest =>
      if predicate x i then everyFrom predicate rest (i + 1) else false
  end.

Definition jsEvery {A : Type} (predicate : A -> Z -> bool) (a : list A)
    : bool :=
  everyFrom predicate a 0.

(** [Math.random() < 0.5 ? i % 256 : 0], where [random k] is what the [k]-th
    call of [Math.random()] returns; the loop makes its [i]-th call in the
    iteration for index [i]. *)
Definition sampleByte (random : nat -> Q) (i : Z) : Z :=
  if jsLt (random (Z.to_nat i)) (1 # 2) then Z.rem i 256 else 0.

(** The loop that fills [sampleData], from the test [i < dataSize]. *)
Fixpoint fillLoop (random : nat -> Q) (dataSize : Z) (fuel : nat) (i : Z)
    (sampleData : bytes) : M bytes :=
  match fuel with
  | O => outOfFuel
  | S fuel' =>
      if i <? dataSize then
        fillLoop random dataSize fuel' (i + 1)
          (typedArrayStore sampleData i (sampleByte random i))
      else ret sampleData
  end.

(** The options and the callback of the example.  The callback prints a
    line and returns; what it is called with is in the log as a [Progress]
    event. *)
Definition exampleOptions : CompressionOptions :=
  mkOptions (Some 9) (Some true) (Some true) (Some (512 * 1024)).

Definition exampleCallback : Callback := fun _ _ => None.

(** The last line the example prints: the verdict of its verification, or
    the message of the error it caught. *)
Inductive ExampleReport : Type :=
| Verification (isValid : bool)
| ErrorReported (message : string).

(** [decompressedData.every((byte, i) => byte === sampleData[i])] *)
Definition verifies (decompressedData sampleData : bytes) : bool :=
  jsEvery (fun b i => strictEqual b (typedArrayGet sampleData i))
    decompressedData.

(** The body of [runZstdExample], with its constant [dataSize] as a
    parameter.  The processor it creates is the [self] of the world.  Both
    [console.log] and [console.error] add a [ConsoleLog] event with the text
    printed (the metrics object printed after compression is what
    [getMetrics] gives there and is not carried by the event); the value
    returned is the last line printed. *)
Definition runExample (rnd : Q -> Q) (perf_now : nat -> Q)
    (ZstdInit : JsError + ZstdCodec) (random : nat -> Q) (dataSize : Z)
    (fuel : nat) : M ExampleReport :=
  tryCatch
    (putSelf newZstdProcessor ;;;
     init ZstdInit ;;;
     sampleData <- fillLoop random dataSize fuel 0 (newUint8Array dataSize) ;;
     createDictionary sampleData ;;;
     compressedData <-
       compressWithProgress rnd perf_now fuel sampleData exampleOptions
         (Some exampleCallback) ;;
     emit (ConsoleLog "Compression completed. Metrics:" None) ;;;
     decompressedData <- decompress rnd perf_now compressedData (Some true) ;;
     let isValid := verifies decompressedData sampleData in
     emit (ConsoleLog
             ("Decompression verification: "
              ++ (if isValid then "Success" else "Failed")) None) ;;;
     ret (Verification isValid))
    (fun error =>
       emit (ConsoleLog ("Error in ZSTD processing: " ++ errMessage error)
               None) ;;;
       ret (ErrorReported (errMessage error))).

Definition runZstdExample (rnd : Q -> Q) (perf_now : nat -> Q)
    (ZstdInit : JsError + ZstdCodec) (random : nat -> Q) (fuel : nat)
    : M ExampleReport :=
  runExample rnd perf_now ZstdInit random (5 * 1024 * 1024) fuel.

(** A generator that alternates between 1/4 and 3/4. *)
Definition alternating : nat -> Q :=
  fun k => if Nat.even k then (1 # 4)%Q else (3 # 4)%Q.

(** ** Vocabulary for further properties *)

(** The bytes [createDictionary] keeps of a sample. *)
Definition dictionaryOf (sample : bytes) : bytes :=
  firstn (Nat.min (List.length sample) 1024) sample.


(** The number of chunks of [data] at chunk size [cs]: the length divided
    by [cs], rounded up. *)
Definition chunkCount (data : bytes) (cs : Z) : nat :=
  Z.to_nat ((jsLength data + cs - 1) / cs).

(** [ccs] are the compressed chunks of the first iterations of the loop
    from offset [i]: the loop test held before each, the codec returned each
    from its chunk, and the callback returned.  Nothing is said of what
    comes after them. *)
Fixpoint loopSteps (rnd : Q -> Q) (data : bytes) (lvl cs : Z)
    (cb : option Callback) (c : ZstdCodec) (d : DictArg) (i : Z)
    (ccs : list bytes) : Prop :=
  match ccs with
  | [] => True
  | cc :: rest =>
      i < jsLength data
      /\ ZstdStream_compress c (jsSlice data i (i + cs)) lvl true d = inr cc
      /\ (forall f, cb = Some f ->
                    f (progressAt rnd data cs i) (jsLength cc) = None)
      /\ loopSteps rnd data lvl cs cb c d (i + cs) rest
  end.

(** How an iteration fails: the codec throws on the chunk, or the codec
    returns and the callback throws. *)
Definition iterationThrows (rnd : Q -> Q) (data : bytes) (lvl cs : Z)
    (cb : option Callback) (c : ZstdCodec) (d : DictArg) (i : Z)
    (e : JsError) (evs : list Event) : Prop :=
  let call := StreamCompressCall (jsSlice data i (i + cs)) lvl d in
  (ZstdStream_compress c (jsSlice data i (i + cs)) lvl true d = inl e
   /\ evs = [call])
  \/ (exists (cc : bytes) (f : Callback),
        ZstdStream_compress c (jsSlice data i (i + cs)) lvl true d = inr cc
        /\ cb = Some f
        /\ f (progressAt rnd data cs i) (jsLength cc) = Some e
        /\ evs = [call; Progress (progressAt rnd data cs i) (jsLength cc)]).

(** The sample the example fills in [n] iterations: byte [k] is [k % 256]
    or 0, as the [k]-th draw of the generator decides. *)
Definition sampleOf (random : nat -> Q) (n : nat) : bytes :=
  map (fun k : nat => byteOfZ (sampleByte random (Z.of_nat k))) (seq 0 n).

(** The world of the example when it starts compressing: a new processor
    with the codec loaded and the dictionary of the sample made, the clock
    untouched, and the two lines of [init] and [createDictionary] printed. *)
Definition afterSetup (c : ZstdCodec) (sample : bytes) (w : World) : World :=
  mkWorld (setDictionary (dictionaryOf sample) (setCodec c newZstdProcessor))
    (clock w)
    ((log w ++ [ConsoleLog "ZSTD library initialized successfully" None])
     ++ [ConsoleLog "Created dictionary of size:"
           (Some (jsLength (dictionaryOf sample)))]).

(** [a] is the beginning of [b]. *)
Definition prefixOf (a b : bytes) : Prop := exists rest : bytes, b = a ++ rest.

(** No metric is negative. *)
Definition metricsNonneg (m : Metrics) : Prop :=
  (0 <= compressionTime m)%Q
  /\ (0 <= decompressionTime m)%Q
  /\ 0 <= originalSize m
  /\ 0 <= compressedSize m.

(** The worlds a new processor can be in after any calls of its methods,
    whatever their arguments and outcomes. *)
Inductive reachable (rnd : Q -> Q) (perf_now : nat -> Q)
    (ZstdInit : JsError + ZstdCodec) : World -> Prop :=
| reach_new : forall (k : nat) (l : list Event),
    reachable rnd perf_now ZstdInit (mkWorld newZstdProcessor k l)
| reach_init : forall w : World,
    reachable rnd perf_now ZstdInit w ->
    reachable rnd perf_now ZstdInit (snd (init ZstdInit w))
| reach_createDictionary : forall (w : World) (sample : bytes),
    reachable rnd perf_now ZstdInit w ->
    reachable rnd perf_now ZstdInit (snd (createDictionary sample w))
| reach_compress :
    forall (w : World) (fuel : nat) (data : bytes)
           (options : CompressionOptions) (cb : option Callback),
      reachable rnd perf_now ZstdInit w ->
      reachable rnd perf_now ZstdInit
        (snd (compressWithProgress rnd perf_now fuel data options cb w))
| reach_decompress :
    forall (w : World) (compressedData : bytes) (useDict : option bool),
      reachable rnd perf_now ZstdInit w ->
      reachable rnd perf_now ZstdInit
        (snd (decompress rnd perf_now compressedData useDict w)).

(** ** Proof steps *)

(** Unfolds the operations of the monad. *)
Ltac unfold_monad :=
  cbv beta iota zeta delta
    [bind ret throw tryCatch getSelf putSelf emit liftCall].

(** Unfolds, with them, the calls into the codec, the clock and the
    assignments to the metrics. *)
Ltac unfold_calls :=
  cbv beta iota zeta delta
    [bind ret throw tryCatch getSelf putSelf emit liftCall withCodec
     performanceNow callSimpleCompress callStreamCompress callStreamDecompress
     invokeCallback setCompressionTime setDecompressionTime setOriginalSize
     setCompressedSize].

(** Names the outcome and the final world of the call under [fst] and [snd]
    in the goal, once the outcome is known to be [Returned]. *)
Ltac name_run Hrun w' :=
  let o := fresh "o" in
  destruct (compressWithProgress _ _ _ _ _ _ _) as [o w'] eqn:Hrun;
  cbn [fst snd] in *; subst o.

(** ** Lists, slices and the assembly of the output *)

Lemma firstn_plus {A : Type} (m n : nat) (l : list A) :
  firstn (m + n) l = firstn m l ++ firstn n (skipn m l).
Proof.
  revert l; induction m as [|m IH]; intros l; simpl.
  - reflexivity.
  - destruct l as [|a l]; simpl.
    + now rewrite firstn_nil.
    + now rewrite IH.
Qed.

Lemma jsLength_nonneg {A : Type} (a : list A) : 0 <= jsLength a.
Proof. unfold jsLength; lia. Qed.

Lemma jsLength_app {A : Type} (a b : list A) :
  jsLength (a ++ b) = jsLength a + jsLength b.
Proof. unfold jsLength; rewrite length_app; lia. Qed.

(** On indices in order, [slice] is [skipn] then [firstn]: the clamping to
    the length is absorbed by the two. *)
Lemma jsSlice_firstn_skipn {A : Type} (a : list A) (s e : Z) :
  0 <= s <= e ->
  jsSlice a s e = firstn (Z.to_nat (e - s)) (skipn (Z.to_nat s) a).
Proof.
  intros H. unfold jsSlice, jsLength.
  destruct (Z.ltb_spec s 0); [lia|].
  destruct (Z.ltb_spec e 0); [lia|].
  destruct (Z_le_gt_dec (Z.of_nat (List.length a)) s) as [Hs|Hs].
  - rewrite !(skipn_all2 a) by lia. now rewrite !firstn_nil.
  - rewrite (Z.min_l s) by lia.
    destruct (Z_le_gt_dec e (Z.of_nat (List.length a))) as [He|He].
    + now rewrite (Z.min_l e) by lia.
    + rewrite (Z.min_r e) by lia.
      rewrite !firstn_all2; try reflexivity; rewrite length_skipn; lia.
Qed.

Lemma jsSlice_length {A : Type} (a : list A) (s e : Z) :
  0 <= s <= e ->
  jsLength (jsSlice a s e) = Z.max 0 (Z.min (e - s) (jsLength a - s)).
Proof.
  intros H. rewrite jsSlice_firstn_skipn by assumption.
  unfold jsLength. rewrite length_firstn, length_skipn. lia.
Qed.

Lemma jsSlice_app {A : Type} (a : list A) (s m e : Z) :
  0 <= s <= m -> m <= e ->
  jsSlice a s m ++ jsSlice a m e = jsSlice a s e.
Proof.
  intros H1 H2. rewrite !jsSlice_firstn_skipn by lia.
  replace (Z.to_nat (e - s)) with (Z.to_nat (m - s) + Z.to_nat (e - m))%nat by lia.
  rewrite firstn_plus, skipn_skipn.
  now replace (Z.to_nat (m - s) + Z.to_nat s)%nat with (Z.to_nat m) by lia.
Qed.

Lemma jsSlice_whole {A : Type} (a : list A) (e : Z) :
  jsLength a <= e -> jsSlice a 0 e = a.
Proof.
  intros H. pose proof (jsLength_nonneg a).
  rewrite jsSlice_firstn_skipn by lia. simpl.
  apply firstn_all2. unfold jsLength in *. lia.
Qed.

Lemma jsSlice_empty {A : Type} (a : list A) (s : Z) :
  0 <= s -> jsSlice a s s = [].
Proof.
  intros H. rewrite jsSlice_firstn_skipn by lia.
  now replace (s - s) with 0 by lia.
Qed.

Lemma totalLength_from (chunks : list bytes) (z : Z) :
  fold_left (fun sum chunk => sum + jsLength chunk) chunks z
  = z + totalLength chunks.
Proof.
  unfold totalLength. revert z.
  induction chunks as [|c chunks IH]; intros z; simpl.
  - lia.
  - rewrite IH, (IH (jsLength c)). lia.
Qed.

Lemma totalLength_cons (c : bytes) (chunks : list bytes) :
  totalLength (c :: chunks) = jsLength c + totalLength chunks.
Proof. unfold totalLength at 1. simpl. apply totalLength_from. Qed.

Lemma totalLength_concat (chunks : list bytes) :
  totalLength chunks = jsLength (List.concat chunks).
Proof.
  induction chunks as [|c chunks IH]; [reflexivity|].
  rewrite totalLength_cons. simpl. now rewrite jsLength_app, IH.
Qed.

(** Copying the chunks one after the other from [offset] into a buffer that
    has room for them never throws and spells their concatenation there. *)
Lemma copyChunks_spec (chunks : list bytes) :
  forall (result : bytes) (offset : Z),
    0 <= offset ->
    offset + totalLength chunks <= jsLength result ->
    copyChunks chunks result offset
    = inr (firstn (Z.to_nat offset) result ++ List.concat chunks
           ++ skipn (Z.to_nat (offset + totalLength chunks)) result).
Proof.
  induction chunks as [|c chunks IH]; intros result offset H0 Hfit.
  - simpl. unfold totalLength; simpl. rewrite Z.add_0_r.
    now rewrite firstn_skipn.
  - rewrite totalLength_cons in *.
    pose proof (jsLength_nonneg c) as Hc.
    pose proof (jsLength_nonneg (List.concat chunks)) as Hcs.
    rewrite <- totalLength_concat in Hcs.
    simpl. unfold typedArraySet.
    destruct (Z.ltb_spec offset 0); [lia|].
    destruct (Z.ltb_spec (jsLength result) (offset + jsLength c)); [lia|].
    simpl.
    set (result' := firstn (Z.to_nat offset) result ++ c
                    ++ skipn (Z.to_nat (offset + jsLength c)) result).
    assert (Hlen : jsLength result' = jsLength result).
    { unfold result'. rewrite !jsLength_app. unfold jsLength in *.
      rewrite length_firstn, length_skipn. lia. }
    rewrite IH by lia. f_equal.
    assert (Hf : List.length (firstn (Z.to_nat offset) result) = Z.to_nat offset).
    { rewrite length_firstn. unfold jsLength in *. lia. }
    assert (Hfc : List.length (firstn (Z.to_nat offset) result ++ c)
                  = Z.to_nat (offset + jsLength c)).
    { rewrite length_app, Hf. unfold jsLength. lia. }
    assert (Hr : result' = (firstn (Z.to_nat offset) result ++ c)
                           ++ skipn (Z.to_nat (offset + jsLength c)) result).
    { unfold result'. now rewrite app_assoc. }
    rewrite Hr.
    rewrite firstn_app, Hfc, Nat.sub_diag, firstn_O, app_nil_r.
    rewrite firstn_all2 by lia.
    rewrite skipn_app, Hfc.
    rewrite (skipn_all2 (firstn (Z.to_nat offset) result ++ c)) by lia.
    simpl. rewrite skipn_skipn.
    replace (Z.to_nat (offset + jsLength c + totalLength chunks)
             - Z.to_nat (offset + jsLength c)
             + Z.to_nat (offset + jsLength c))%nat
      with (Z.to_nat (offset + (jsLength c + totalLength chunks))) by lia.
    now rewrite <- !app_assoc.
Qed.

Lemma copyChunks_concat (chunks : list bytes) :
  copyChunks chunks (newUint8Array (totalLength chunks)) 0
  = inr (List.concat chunks).
Proof.
  pose proof (jsLength_nonneg (List.concat chunks)) as H.
  rewrite <- totalLength_concat in H.
  assert (Hn : jsLength (newUint8Array (totalLength chunks)) = totalLength chunks).
  { unfold newUint8Array, jsLength. rewrite repeat_length. lia. }
  rewrite copyChunks_spec by lia.
  rewrite Z.add_0_l, skipn_all2 by (unfold jsLength in Hn; lia).
  simpl. now rewrite app_nil_r.
Qed.

(** ** The chunking loop *)

Section StreamLoop.

Variable rnd : Q -> Q.
Variables (data : bytes) (lvl : Z) (useDict : bool) (cs : Z).
Variable cb : option Callback.

Lemma appendLog_nil (w : World) : appendLog w [] = w.
Proof. destruct w; unfold appendLog; simpl. now rewrite app_nil_r. Qed.

Lemma appendLog_app (w : World) (e1 e2 : list Event) :
  appendLog (appendLog w e1) e2 = appendLog w (e1 ++ e2).
Proof. unfold appendLog; simpl. now rewrite app_assoc. Qed.

Lemma self_appendLog (w : World) (evs : list Event) :
  self (appendLog w evs) = self w.
Proof. reflexivity. Qed.

(** One iteration, spelled out on the world. *)
Lemma streamLoop_step (fuel : nat) (i : Z) (chunks : list bytes) (w : World)
    (c : ZstdCodec) :
  codec (self w) = Some c ->
  i < jsLength data ->
  let d := dictArgOf useDict (self w) in
  let call := StreamCompressCall (jsSlice data i (i + cs)) lvl d in
  streamLoop rnd (S fuel) data lvl useDict cs cb i chunks w
  = match ZstdStream_compress c (jsSlice data i (i + cs)) lvl true d with
    | inl e => (Thrown e, appendLog w [call])
    | inr cc =>
        match cb with
        | Some f =>
            match f (progressAt rnd data cs i) (jsLength cc) with
            | Some e =>
                (Thrown e,
                 appendLog w
                   [call; Progress (progressAt rnd data cs i) (jsLength cc)])
            | None =>
                streamLoop rnd fuel data lvl useDict cs cb (i + cs)
                  (chunks ++ [cc])
                  (appendLog w
                     [call; Progress (progressAt rnd data cs i) (jsLength cc);
                      Yield])
            end
        | None =>
            streamLoop rnd fuel data lvl useDict cs cb (i + cs)
              (chunks ++ [cc]) (appendLog w [call; Yield])
        end
    end.
Proof.
  intros Hc Hi d call. cbn [streamLoop].
  destruct (Z.ltb_spec i (jsLength data)); [|lia].
  subst d call.
  unfold_calls. unfold appendLog, dictArgOf, progressAt.
  destruct useDict; cbn [self clock log]; rewrite Hc; cbn [self clock log];
    (destruct (ZstdStream_compress c _ lvl true _) as [e|cc]; [reflexivity|]);
    (destruct cb as [f|]; cbn [self clock log];
     [destruct (f _ _); cbn [self clock log]|]);
    rewrite <- ?app_assoc; reflexivity.
Qed.

Lemma streamLoop_exit (fuel : nat) (i : Z) (chunks : list bytes) (w : World) :
  jsLength data <= i ->
  streamLoop rnd (S fuel) data lvl useDict cs cb i chunks w
  = (Returned chunks, w).
Proof.
  intros Hi. cbn [streamLoop].
  destruct (Z.ltb_spec i (jsLength data)); [lia|reflexivity].
Qed.

(** A run of the loop that returns: the chunks it appends, what it logs,
    and that it leaves the processor and the clock alone. *)
Lemma streamLoop_returned (c : ZstdCodec) (fuel : nat) :
  forall (i : Z) (chunks : list bytes) (w : World) out w',
    codec (self w) = Some c ->
    streamLoop rnd fuel data lvl useDict cs cb i chunks w = (Returned out, w') ->
    exists ccs,
      out = chunks ++ ccs
      /\ w' = appendLog w
                (loopEvents rnd data lvl cs cb (dictArgOf useDict (self w))
                   i ccs)
      /\ loopRun rnd data lvl cs cb c (dictArgOf useDict (self w)) i ccs.
Proof.
  induction fuel as [|fuel IH]; intros i chunks w out w' Hc Hrun.
  - discriminate Hrun.
  - destruct (Z_lt_le_dec i (jsLength data)) as [Hi|Hi].
    + rewrite (streamLoop_step fuel chunks w Hc Hi) in Hrun.
      destruct (ZstdStream_compress c _ lvl true _) as [e|cc] eqn:Hcc;
        [discriminate Hrun|].
      destruct cb as [f|] eqn:Hcb.
      * destruct (f _ _) as [e|] eqn:Hf; [discriminate Hrun|].
        apply IH in Hrun; [|assumption].
        destruct Hrun as (ccs & Hout & Hw & Hccs).
        rewrite self_appendLog in Hw, Hccs.
        exists (cc :: ccs). cbn [loopEvents loopRun].
        rewrite Hout, Hw, appendLog_app, <- app_assoc.
        split; [reflexivity|]. split; [reflexivity|].
        split; [assumption|]. split; [assumption|]. split; [|assumption].
        intros f' Hf'. injection Hf' as <-. exact Hf.
      * apply IH in Hrun; [|assumption].
        destruct Hrun as (ccs & Hout & Hw & Hccs).
        rewrite self_appendLog in Hw, Hccs.
        exists (cc :: ccs). cbn [loopEvents loopRun].
        rewrite Hout, Hw, appendLog_app, <- app_assoc.
        split; [reflexivity|]. split; [reflexivity|].
        split; [assumption|]. split; [assumption|]. split; [|assumption].
        intros f' Hf'. discriminate Hf'.
    + rewrite streamLoop_exit in Hrun by assumption.
      injection Hrun as <- <-. exists [].
      cbn [loopEvents loopRun].
      now rewrite app_nil_r, appendLog_nil.
Qed.

(** With a positive chunk size the loop ends: fuel beyond the bytes left
    is never used up. *)
Lemma streamLoop_terminates (fuel : nat) :
  forall (i : Z) (chunks : list bytes) (w : World),
    0 < cs ->
    codec (self w) <> None ->
    (Z.to_nat (jsLength data - i) < fuel)%nat ->
    fst (streamLoop rnd fuel data lvl useDict cs cb i chunks w) <> OutOfFuel.
Proof.
  induction fuel as [|fuel IH]; intros i chunks w Hcs Hc Hfuel; [lia|].
  destruct (codec (self w)) as [c|] eqn:Hcw; [clear Hc|congruence].
  destruct (Z_lt_le_dec i (jsLength data)) as [Hi|Hi].
  - rewrite (streamLoop_step fuel chunks w Hcw Hi).
    destruct (ZstdStream_compress c _ lvl true _) as [e|cc];
      [discriminate|].
    destruct cb as [f|].
    + destruct (f _ _); [discriminate|].
      apply IH; [assumption|simpl; congruence|lia].
    + apply IH; [assumption|simpl; congruence|lia].
  - rewrite streamLoop_exit by assumption. discriminate.
Qed.

(** With a chunk size that is not positive the loop never gets past a
    non-empty input: no amount of fuel makes it return. *)
Lemma streamLoop_stuck (fuel : nat) :
  forall (i : Z) (chunks : list bytes) (w : World) out w',
    cs <= 0 ->
    i < jsLength data ->
    codec (self w) <> None ->
    streamLoop rnd fuel data lvl useDict cs cb i chunks w <> (Returned out, w').
Proof.
  induction fuel as [|fuel IH]; intros i chunks w out w' Hcs Hi Hc;
    [discriminate|].
  destruct (codec (self w)) as [c|] eqn:Hcw; [clear Hc|congruence].
  rewrite (streamLoop_step fuel chunks w Hcw Hi).
  destruct (ZstdStream_compress c _ lvl true _) as [e|cc]; [discriminate|].
  destruct cb as [f|].
  - destruct (f _ _); [discriminate|].
    apply IH; [assumption|lia|simpl; congruence].
  - apply IH; [assumption|lia|simpl; congruence].
Qed.

(** When neither the codec nor the callback throws, the loop returns. *)
Lemma streamLoop_returns (c : ZstdCodec) (fuel : nat) :
  forall (i : Z) (chunks : list bytes) (w : World),
    0 < cs ->
    codec (self w) = Some c ->
    (Z.to_nat (jsLength data - i) < fuel)%nat ->
    (forall chunk d,
        exists cc, ZstdStream_compress c chunk lvl true d = inr cc) ->
    (forall f q n, cb = Some f -> f q n = None) ->
    exists out w',
      streamLoop rnd fuel data lvl useDict cs cb i chunks w = (Returned out, w').
Proof.
  induction fuel as [|fuel IH]; intros i chunks w Hcs Hcw Hfuel Hcodec Hcb;
    [lia|].
  destruct (Z_lt_le_dec i (jsLength data)) as [Hi|Hi].
  - rewrite (streamLoop_step fuel chunks w Hcw Hi).
    destruct (Hcodec (jsSlice data i (i + cs)) (dictArgOf useDict (self w)))
      as [cc ->].
    destruct cb as [f|] eqn:Ecb.
    + rewrite (Hcb f _ _ eq_refl).
      apply IH; try assumption; lia.
    + apply IH; try assumption; lia.
  - rewrite streamLoop_exit by assumption. eauto.
Qed.

End StreamLoop.

(** ** The methods, spelled out on the world *)

Section Methods.

Variable rnd : Q -> Q.
Variable perf_now : nat -> Q.

(** Whatever its outcome, the loop only appends to the log. *)
Lemma streamLoop_appends (data : bytes) (lvl : Z) (useDict : bool) (cs : Z)
    (cb : option Callback) (c : ZstdCodec) (fuel : nat) :
  forall (i : Z) (chunks : list bytes) (w : World),
    codec (self w) = Some c ->
    exists evs,
      snd (streamLoop rnd fuel data lvl useDict cs cb i chunks w)
      = appendLog w evs.
Proof.
  induction fuel as [|fuel IH]; intros i chunks w Hc.
  - exists []. now rewrite appendLog_nil.
  - destruct (Z_lt_le_dec i (jsLength data)) as [Hi|Hi].
    + rewrite (streamLoop_step rnd data lvl useDict cs cb fuel chunks w Hc Hi).
      destruct (ZstdStream_compress c _ lvl true _) as [e|cc];
        [eexists; reflexivity|].
      destruct cb as [f|].
      * destruct (f _ _); [eexists; reflexivity|].
        edestruct IH as [evs Hevs]; [|rewrite Hevs, appendLog_app; eauto].
        exact Hc.
      * edestruct IH as [evs Hevs]; [|rewrite Hevs, appendLog_app; eauto].
        exact Hc.
    + rewrite streamLoop_exit by assumption.
      exists []. now rewrite appendLog_nil.
Qed.

(** [streamCompress] is its loop followed by the concatenation of the
    chunks: the copy into the result buffer never throws. *)
Lemma streamCompress_eq (fuel : nat) (data : bytes) (lvl : Z)
    (useDict : bool) (cs : Z) (cb : option Callback) (w : World) :
  streamCompress rnd fuel data lvl useDict cs cb w
  = match streamLoop rnd fuel data lvl useDict cs cb 0 [] w with
    | (Returned chunks, w') => (Returned (List.concat chunks), w')
    | (Thrown e, w') => (Thrown e, w')
    | (OutOfFuel, w') => (OutOfFuel, w')
    end.
Proof.
  unfold streamCompress, bind.
  destruct (streamLoop rnd fuel data lvl useDict cs cb 0 [] w) as [[chunks|e|] w'];
    try reflexivity.
  now rewrite copyChunks_concat.
Qed.

Lemma compressWithProgress_eq (fuel : nat) (data : bytes)
    (options : CompressionOptions) (cb : option Callback) (w : World)
    (c : ZstdCodec) :
  codec (self w) = Some c ->
  compressWithProgress rnd perf_now fuel data options cb w
  = match compressCore rnd fuel data options cb (tick w) with
    | (Returned out, w') =>
        (Returned out,
         mkWorld
           (recordCompression
              (jsSub rnd (perf_now (clock w')) (perf_now (clock w)))
              (jsLength data) (jsLength out) (self w'))
           (S (clock w')) (log w'))
    | (Thrown e, w') =>
        (Thrown (newError ("Compression failed: " ++ errMessage e)), w')
    | (OutOfFuel, w') => (OutOfFuel, w')
    end.
Proof.
  intros Hc. unfold compressWithProgress, compressCore.
  cbv beta iota zeta delta [bind getSelf performanceNow tryCatch].
  rewrite Hc. cbn [self clock log]. fold (tick w).
  destruct (withDefault false (useStream options)).
  - destruct (streamCompress _ _ _ _ _ _ _ (tick w)) as [[out|e|] w'];
      reflexivity.
  - unfold dictArgOf.
    destruct (withDefault false (useDictionary options));
      cbn [tick self];
      destruct (callSimpleCompress _ _ _ (tick w)) as [[out|e|] w'];
      reflexivity.
Qed.

Lemma compressWithProgress_uninitialized (fuel : nat) (data : bytes)
    (options : CompressionOptions) (cb : option Callback) (w : World) :
  codec (self w) = None ->
  compressWithProgress rnd perf_now fuel data options cb w
  = (Thrown (newError "ZSTD not initialized"), w).
Proof.
  intros Hc. unfold compressWithProgress.
  unfold_monad. now rewrite Hc.
Qed.

Lemma callSimpleCompress_eq (data : bytes) (lvl : Z) (d : DictArg)
    (w : World) (c : ZstdCodec) :
  codec (self w) = Some c ->
  callSimpleCompress data lvl d w
  = match ZstdSimple_compress c data lvl d with
    | inr out => (Returned out, appendLog w [SimpleCompressCall data lvl d])
    | inl e => (Thrown e, appendLog w [SimpleCompressCall data lvl d])
    end.
Proof.
  intros Hc. unfold callSimpleCompress.
  unfold_calls.
  rewrite Hc. cbn [self clock log].
  destruct (ZstdSimple_compress c data lvl d); reflexivity.
Qed.

(** The core leaves the processor and the clock as they are. *)
Lemma compressCore_appends (fuel : nat) (data : bytes)
    (options : CompressionOptions) (cb : option Callback) (w : World)
    (c : ZstdCodec) :
  codec (self w) = Some c ->
  exists evs, snd (compressCore rnd fuel data options cb w) = appendLog w evs.
Proof.
  intros Hc. unfold compressCore.
  destruct (withDefault false (useStream options)).
  - rewrite streamCompress_eq.
    destruct (streamLoop_appends data (withDefault 5 (level options))
                (withDefault false (useDictionary options))
                (withDefault (1024 * 1024) (chunkSize options)) cb
                fuel 0 [] w Hc) as [evs Hevs].
    exists evs. rewrite <- Hevs.
    destruct (streamLoop _ _ _ _ _ _ _ _ _ _) as [[chunks|e|] w'];
      reflexivity.
  - rewrite (callSimpleCompress_eq _ _ _ w Hc).
    destruct (ZstdSimple_compress _ _ _ _); eexists; reflexivity.
Qed.

Lemma decompress_eq (compressedData : bytes) (useDict : option bool)
    (w : World) (c : ZstdCodec) :
  codec (self w) = Some c ->
  let d := dictArgOf (withDefault false useDict) (self w) in
  let called := mkWorld (self w) (S (clock w))
                  (log w ++ [StreamDecompressCall compressedData d]) in
  decompress rnd perf_now compressedData useDict w
  = match ZstdStream_decompress c compressedData d with
    | inr out =>
        (Returned out,
         mkWorld
           (setMetrics
              (mkMetrics (compressionTime (performanceMetrics (self w)))
                 (jsSub rnd (perf_now (S (clock w))) (perf_now (clock w)))
                 (originalSize (performanceMetrics (self w)))
                 (compressedSize (performanceMetrics (self w))))
              (self w))
           (S (S (clock w)))
           (log w ++ [StreamDecompressCall compressedData d]))
    | inl e =>
        (Thrown (newError ("Decompression failed: " ++ errMessage e)),
         called)
    end.
Proof.
  intros Hc d called. subst d called. unfold decompress.
  unfold_calls. unfold dictArgOf.
  rewrite Hc. cbn [self clock log].
  destruct (withDefault false useDict); cbn [self clock log]; rewrite Hc;
    cbn [self clock log];
    destruct (ZstdStream_decompress c compressedData _); reflexivity.
Qed.

Lemma decompress_uninitialized (compressedData : bytes)
    (useDict : option bool) (w : World) :
  codec (self w) = None ->
  decompress rnd perf_now compressedData useDict w
  = (Thrown (newError "ZSTD not initialized"), w).
Proof.
  intros Hc. unfold decompress.
  unfold_monad. now rewrite Hc.
Qed.

End Methods.

Lemma dictionary_slice (sample : bytes) :
  jsSlice sample 0 (Z.min (jsLength sample) 1024) = dictionaryOf sample.
Proof.
  pose proof (jsLength_nonneg sample).
  rewrite jsSlice_firstn_skipn by lia. cbn [Z.to_nat skipn].
  unfold dictionaryOf. f_equal. unfold jsLength. lia.
Qed.

Lemma createDictionary_eq (sample : bytes) (w : World) :
  createDictionary sample w
  = (Returned (Some (dictionaryOf sample)),
     mkWorld (setDictionary (dictionaryOf sample) (self w)) (clock w)
       (log w ++ [ConsoleLog "Created dictionary of size:"
                    (Some (jsLength (dictionaryOf sample)))])).
Proof.
  unfold createDictionary. unfold_monad.
  cbn [self clock log setDictionary dictionary option_map].
  now rewrite dictionary_slice.
Qed.

Lemma init_eq (ZstdInit : JsError + ZstdCodec) (w : World) :
  init ZstdInit w
  = match ZstdInit with
    | inr c =>
        (Returned tt,
         mkWorld (setCodec c (self w)) (clock w)
           (log w ++ [ConsoleLog "ZSTD library initialized successfully" None]))
    | inl e =>
        (Thrown (newError ("Failed to initialize ZSTD: " ++ errMessage e)), w)
    end.
Proof. unfold init. unfold_monad. destruct ZstdInit; reflexivity. Qed.

(** ** What the log of a streaming run says *)

Section Chunks.

Variable rnd : Q -> Q.
Variables (data : bytes) (lvl : Z) (cs : Z).
Variable cb : option Callback.

Lemma chunksFrom_length (n : nat) (i : Z) :
  List.length (chunksFrom data cs n i) = n.
Proof. revert i; induction n; intros i; simpl; auto. Qed.

Lemma chunksFrom_nth (n : nat) :
  forall (i : Z) (k : nat),
    (k < n)%nat ->
    nth k (chunksFrom data cs n i) []
    = jsSlice data (i + Z.of_nat k * cs) (i + Z.of_nat k * cs + cs).
Proof.
  induction n as [|n IH]; intros i k Hk; [lia|].
  destruct k as [|k]; simpl chunksFrom; cbn [nth].
  - now replace (i + Z.of_nat 0 * cs) with i by lia.
  - rewrite IH by lia. f_equal; lia.
Qed.

Lemma chunksFrom_concat (n : nat) :
  forall i : Z,
    0 < cs -> 0 <= i ->
    List.concat (chunksFrom data cs n i) = jsSlice data i (i + Z.of_nat n * cs).
Proof.
  induction n as [|n IH]; intros i Hcs Hi.
  - cbn [chunksFrom List.concat].
    replace (i + Z.of_nat 0 * cs) with i by lia.
    now rewrite jsSlice_empty.
  - cbn [chunksFrom List.concat]. rewrite IH by lia.
    rewrite jsSlice_app by nia. f_equal. lia.
Qed.

Lemma codecChunks_loopEvents (d : DictArg) (ccs : list bytes) :
  forall i : Z,
    codecChunks (loopEvents rnd data lvl cs cb d i ccs)
    = chunksFrom data cs (List.length ccs) i.
Proof.
  induction ccs as [|cc ccs IH]; intros i; [reflexivity|].
  cbn [loopEvents codecChunks List.length chunksFrom].
  destruct cb; cbn [app codecChunks]; now rewrite IH.
Qed.

Lemma compressCalls_loopEvents (d : DictArg) (ccs : list bytes) :
  forall i : Z,
    compressCalls (loopEvents rnd data lvl cs cb d i ccs) = List.length ccs.
Proof.
  induction ccs as [|cc ccs IH]; intros i; [reflexivity|].
  cbn [loopEvents compressCalls List.length].
  destruct cb; cbn [app compressCalls]; now rewrite IH.
Qed.

(** The offsets of a finished run: the last iteration starts inside the
    input and the one after it would start at or past its end. *)
Lemma loopRun_count (c : ZstdCodec) (d : DictArg) (ccs : list bytes) :
  forall i : Z,
    loopRun rnd data lvl cs cb c d i ccs ->
    jsLength data <= i + Z.of_nat (List.length ccs) * cs
    /\ (ccs <> [] ->
        i + (Z.of_nat (List.length ccs) - 1) * cs < jsLength data).
Proof.
  induction ccs as [|cc ccs IH]; intros i Hrun.
  - cbn in *. split; [lia|congruence].
  - cbn [loopRun] in Hrun. destruct Hrun as (Hi & _ & _ & Hrest).
    apply IH in Hrest. destruct Hrest as [Hend Hlast].
    cbn [List.length]. split; [lia|]. intros _.
    destruct ccs as [|cc' ccs]; [cbn; lia|].
    specialize (Hlast ltac:(discriminate)). cbn [List.length] in *. lia.
Qed.

(** The codec returned each compressed chunk from the slice at its
    offset. *)
Lemma loopRun_compressed (c : ZstdCodec) (d : DictArg) (ccs : list bytes) :
  forall i : Z,
    loopRun rnd data lvl cs cb c d i ccs ->
    Forall2 (fun chunk cc => ZstdStream_compress c chunk lvl true d = inr cc)
      (chunksFrom data cs (List.length ccs) i) ccs.
Proof.
  induction ccs as [|cc ccs IH]; intros i Hrun; [constructor|].
  cbn [loopRun] in Hrun. destruct Hrun as (_ & Hcc & _ & Hrest).
  cbn [List.length chunksFrom]. constructor; auto.
Qed.

Lemma progressReports_loopEvents (d : DictArg) (f : Callback)
    (ccs : list bytes) :
  cb = Some f ->
  forall i : Z,
    progressReports (loopEvents rnd data lvl cs cb d i ccs)
    = match ccs with
      | [] => []
      | cc :: rest =>
          (progressAt rnd data cs i, jsLength cc)
          :: progressReports (loopEvents rnd data lvl cs cb d (i + cs) rest)
      end.
Proof.
  intros Hcb i. destruct ccs as [|cc ccs]; [reflexivity|].
  cbn [loopEvents]. rewrite Hcb. reflexivity.
Qed.

Lemma progressReports_lengths (d : DictArg) (f : Callback)
    (ccs : list bytes) :
  cb = Some f ->
  forall i : Z,
    map snd (progressReports (loopEvents rnd data lvl cs cb d i ccs))
    = map (fun cc => jsLength cc) ccs.
Proof.
  intros Hcb. induction ccs as [|cc ccs IH]; intros i; [reflexivity|].
  rewrite (progressReports_loopEvents d (cc :: ccs) Hcb).
  cbn [map snd]. now rewrite IH.
Qed.

Lemma sumZ_lengths (ccs : list bytes) :
  sumZ (map (fun cc => jsLength cc) ccs) = jsLength (List.concat ccs).
Proof.
  induction ccs as [|cc ccs IH]; [reflexivity|].
  cbn [map sumZ fold_right List.concat]. rewrite jsLength_app.
  unfold sumZ in IH. now rewrite IH.
Qed.

End Chunks.

(** ** The reported fractions *)

Section Fractions.

Variable rnd : Q -> Q.
Variables (data : bytes) (lvl : Z) (cs : Z).
Variable cb : option Callback.

(** Rounding to a double keeps the order and keeps [1]. *)
Hypothesis rnd_monotone : forall x y : Q, (x <= y)%Q -> (rnd x <= rnd y)%Q.
Hypothesis rnd_one : (rnd 1 == 1)%Q.

Lemma progressAt_monotone (i j : Z) :
  0 < jsLength data -> i <= j ->
  (progressAt rnd data cs i <= progressAt rnd data cs j)%Q.
Proof.
  intros Hlen Hij. unfold progressAt, jsDiv.
  apply Q.min_le_compat_r, rnd_monotone.
  unfold Qdiv. apply Qmult_le_compat_r.
  - rewrite <- Zle_Qle. lia.
  - apply Qinv_le_0_compat. replace 0%Q with (inject_Z 0) by reflexivity.
    rewrite <- Zle_Qle. lia.
Qed.

Lemma progressAt_final (i : Z) :
  0 < jsLength data -> jsLength data <= i + cs ->
  (progressAt rnd data cs i == 1)%Q.
Proof.
  intros Hlen Hend. unfold progressAt, jsDiv.
  apply Q.min_r. rewrite <- rnd_one at 1. apply rnd_monotone.
  apply Qle_shift_div_l.
  - replace 0%Q with (inject_Z 0) by reflexivity. rewrite <- Zlt_Qlt. lia.
  - rewrite Qmult_1_l, <- Zle_Qle. lia.
Qed.

Lemma fractions_sorted (c : ZstdCodec) (d : DictArg) (f : Callback)
    (ccs : list bytes) :
  cb = Some f -> 0 < cs ->
  forall i : Z,
    0 <= i ->
    loopRun rnd data lvl cs cb c d i ccs ->
    Sorted Qle
      (map fst (progressReports (loopEvents rnd data lvl cs cb d i ccs))).
Proof.
  intros Hcb Hcs. induction ccs as [|cc ccs IH]; intros i H0 Hrun.
  - constructor.
  - rewrite (progressReports_loopEvents rnd data lvl cs d (cc :: ccs) Hcb).
    cbn [loopRun] in Hrun. destruct Hrun as (Hi & _ & _ & Hrest).
    cbn [map fst]. constructor; [apply IH; [lia|assumption]|].
    rewrite (progressReports_loopEvents rnd data lvl cs d ccs Hcb).
    destruct ccs as [|cc' ccs]; constructor.
    cbn [fst]. apply progressAt_monotone; lia.
Qed.

Lemma fractions_last (c : ZstdCodec) (d : DictArg) (f : Callback)
    (ccs : list bytes) :
  cb = Some f -> 0 < cs -> ccs <> [] ->
  forall i : Z,
    0 <= i ->
    loopRun rnd data lvl cs cb c d i ccs ->
    (last (map fst (progressReports (loopEvents rnd data lvl cs cb d i ccs)))
       0 == 1)%Q.
Proof.
  intros Hcb Hcs. induction ccs as [|cc ccs IH]; intros Hne i H0 Hrun;
    [congruence|].
  rewrite (progressReports_loopEvents rnd data lvl cs d (cc :: ccs) Hcb).
  cbn [loopRun] in Hrun. destruct Hrun as (Hi & _ & _ & Hrest).
  destruct ccs as [|cc' ccs].
  - cbn [loopRun] in Hrest. cbn.
    apply progressAt_final; lia.
  - specialize (IH ltac:(discriminate) (i + cs) ltac:(lia) Hrest).
    rewrite (progressReports_loopEvents rnd data lvl cs d (cc' :: ccs) Hcb) in *.
    cbn [map fst] in *. exact IH.
Qed.

End Fractions.

(** ** Streaming compression as a whole *)

Section StreamingRun.

Variable rnd : Q -> Q.
Variable perf_now : nat -> Q.
Variables (fuel : nat) (data : bytes) (options : CompressionOptions).
Variable cb : option Callback.
Variable w : World.

Let lvl := levelOf options.
Let cs := chunkSizeOf options.
Let d := dictArgOf (usesDictionary options) (self w).

(** A streaming call that returns: its output is the concatenation of the
    compressed chunks of a finished run of the loop, and the log grows by
    the events of that run. *)
Lemma compress_stream_returned (out : bytes) (w' : World) :
  streaming options = true ->
  compressWithProgress rnd perf_now fuel data options cb w = (Returned out, w') ->
  exists c ccs,
    codec (self w) = Some c
    /\ out = List.concat ccs
    /\ loopRun rnd data lvl cs cb c d 0 ccs
    /\ log w' = log w ++ loopEvents rnd data lvl cs cb d 0 ccs.
Proof.
  intros Hs Hrun.
  destruct (codec (self w)) as [c|] eqn:Hc.
  2:{ rewrite compressWithProgress_uninitialized in Hrun by assumption.
      discriminate Hrun. }
  rewrite (compressWithProgress_eq rnd perf_now fuel data options cb w Hc)
    in Hrun.
  unfold compressCore in Hrun. unfold streaming in Hs. rewrite Hs in Hrun.
  rewrite streamCompress_eq in Hrun.
  destruct (streamLoop _ _ _ _ _ _ _ _ _ (tick w)) as [[chunks|e|] w1] eqn:Hloop;
    try discriminate Hrun.
  injection Hrun as <- <-.
  apply (streamLoop_returned rnd data _ _ _ cb fuel 0 [] (tick w) Hc) in Hloop.
  destruct Hloop as (ccs & Hout & Hw1 & Hccs).
  exists c, ccs. subst w1. cbn in Hout. subst chunks.
  repeat split; try reflexivity; assumption.
Qed.

(** With a positive chunk size, fuel beyond the length of the input is
    enough for any call. *)
Lemma compress_enough_fuel :
  0 < cs ->
  (List.length data < fuel)%nat ->
  fst (compressWithProgress rnd perf_now fuel data options cb w) <> OutOfFuel.
Proof.
  intros Hcs Hfuel.
  destruct (codec (self w)) as [c|] eqn:Hc.
  2:{ now rewrite compressWithProgress_uninitialized by assumption. }
  rewrite (compressWithProgress_eq rnd perf_now fuel data options cb w Hc).
  unfold compressCore.
  destruct (withDefault false (useStream options)).
  - rewrite streamCompress_eq.
    pose proof (@streamLoop_terminates rnd data (withDefault 5 (level options))
                  (withDefault false (useDictionary options)) cs cb fuel
                  0 [] (tick w) Hcs) as Hterm.
    destruct (streamLoop _ _ _ _ _ _ _ _ _ (tick w)) as [[chunks|e|] w1];
      try discriminate.
    exfalso. apply Hterm; [cbn; congruence| |reflexivity].
    unfold jsLength. lia.
  - rewrite (callSimpleCompress_eq _ _ _ (tick w) Hc).
    destruct (ZstdSimple_compress _ _ _ _); discriminate.
Qed.

(** In streaming mode with a chunk size that is not positive, a call on a
    non-empty input returns for no amount of fuel: it throws, or the loop
    goes on for ever. *)
Lemma compress_stuck :
  cs <= 0 ->
  streaming options = true ->
  data <> [] ->
  forall out : bytes,
    fst (compressWithProgress rnd perf_now fuel data options cb w)
    <> Returned out.
Proof.
  intros Hcs Hs Hd out.
  assert (Hlen : 0 < jsLength data).
  { destruct data; [congruence|unfold jsLength; cbn; lia]. }
  destruct (codec (self w)) as [c|] eqn:Hc.
  2:{ now rewrite compressWithProgress_uninitialized by assumption. }
  rewrite (compressWithProgress_eq rnd perf_now fuel data options cb w Hc).
  unfold compressCore. unfold streaming in Hs. rewrite Hs.
  rewrite streamCompress_eq.
  destruct (streamLoop _ _ _ _ _ _ _ _ _ (tick w)) as [[chunks|e|] w1] eqn:Hloop;
    try discriminate.
  exfalso. revert Hloop.
  apply streamLoop_stuck; [exact Hcs|exact Hlen|cbn; congruence].
Qed.

(** The chunks of a finished run with a positive chunk size. *)
Lemma loopRun_chunks (c : ZstdCodec) (ccs : list bytes) :
  0 < cs ->
  loopRun rnd data lvl cs cb c d 0 ccs ->
  partitionOf data cs (chunksFrom data cs (List.length ccs) 0).
Proof.
  intros Hcs Hrun. unfold partitionOf.
  set (chunks := chunksFrom data cs (List.length ccs) 0).
  pose proof (loopRun_count rnd data lvl cs cb c d ccs 0 Hrun) as [Hend Hlast].
  pose proof (jsLength_nonneg data) as Hlen.
  assert (Hn : List.length chunks = List.length ccs)
    by apply chunksFrom_length.
  assert (Hnth : forall k : nat,
             (k < List.length chunks)%nat ->
             nth k chunks []
             = jsSlice data (Z.of_nat k * cs) (Z.of_nat k * cs + cs)).
  { intros k Hk. unfold chunks.
    rewrite chunksFrom_nth by lia. f_equal; lia. }
  assert (Hne : ccs <> [] -> (0 < List.length ccs)%nat).
  { destruct ccs; [congruence|cbn; lia]. }
  split; [|split; [exact Hnth|split; [|split; [|split]]]].
  - unfold chunks. rewrite chunksFrom_concat by lia.
    apply jsSlice_whole. lia.
  - intros k Hk. rewrite Hnth by lia.
    rewrite jsSlice_length by nia.
    assert (ccs <> []) as Hc by (intros ->; cbn in *; lia).
    specialize (Hlast Hc). nia.
  - intros k Hk. rewrite Hnth by lia.
    rewrite jsSlice_length by nia.
    assert (ccs <> []) as Hc by (intros ->; cbn in *; lia).
    specialize (Hlast Hc).
    replace (Z.of_nat k) with (Z.of_nat (List.length ccs) - 1) by lia.
    nia.
  - intros Hd Hsmall. rewrite Hn.
    assert (0 < jsLength data).
    { destruct data; [congruence|unfold jsLength; cbn; lia]. }
    destruct ccs as [|cc [|cc' rest]]; [cbn in *; lia|reflexivity|].
    specialize (Hlast ltac:(discriminate)). cbn [List.length] in Hlast. nia.
  - intros Hd. unfold chunks.
    destruct ccs as [|cc rest]; [reflexivity|].
    cbn [loopRun] in Hrun. rewrite Hd in Hrun. cbn in Hrun. lia.
Qed.

End StreamingRun.

(** ** The class on a small input *)

(** Ten bytes at chunk size 4 go to the codec as three chunks, of 4, 4 and 2
    bytes. *)
Example ten_bytes_three_chunks :
  codecChunks
    (log (snd (compressWithProgress exactRnd tickClock 11
                 [x00; x01; x02; x03; x04; x05; x06; x07; x08; x09]
                 (streamOptions 4) None (readyWorld storeCodec))))
  = [[x00; x01; x02; x03]; [x04; x05; x06; x07]; [x08; x09]].
Proof. reflexivity. Qed.

(** The callback is told 4/10, 8/10 and 1, each time with the length of the
    compressed chunk (the marker codec adds a byte to each). *)
Example ten_bytes_progress :
  progressReports
    (log (snd (compressWithProgress exactRnd tickClock 11
                 [x00; x01; x02; x03; x04; x05; x06; x07; x08; x09]
                 (streamOptions 4) (Some noThrow) (readyWorld markerCodec))))
  = [((4 # 10)%Q, 5); ((8 # 10)%Q, 5); (1%Q, 3)].
Proof. reflexivity. Qed.

(** A callback that throws stops the call after the first chunk, and the
    error comes out wrapped. *)
Example callback_throws :
  fst (compressWithProgress exactRnd tickClock 11 [x00; x01; x02]
         (streamOptions 1) (Some (fun _ _ => Some (newError "stop")))
         (readyWorld storeCodec))
  = Thrown (newError "Compression failed: stop").
Proof. reflexivity. Qed.

(** ** Properties of the class *)

Unset Implicit Arguments.

(** In streaming mode, a call returns when neither the codec nor the
    callback throws. *)
Lemma compress_stream_total (rnd : Q -> Q) (perf_now : nat -> Q)
    (fuel : nat) (data : bytes) (options : CompressionOptions)
    (cb : option Callback) (w : World) (c : ZstdCodec) :
  codec (self w) = Some c ->
  streaming options = true ->
  0 < chunkSizeOf options ->
  (List.length data < fuel)%nat ->
  (forall chunk d,
      exists cc,
        ZstdStream_compress c chunk (levelOf options) true d = inr cc) ->
  (forall f q n, cb = Some f -> f q n = None) ->
  exists out : bytes,
    fst (compressWithProgress rnd perf_now fuel data options cb w)
    = Returned out.
Proof.
  intros Hc Hs Hcs Hfuel Hstream Hcb.
  rewrite (compressWithProgress_eq rnd perf_now fuel data options cb w Hc).
  unfold compressCore. unfold streaming in Hs. rewrite Hs.
  assert (Hc' : codec (self (tick w)) = Some c) by exact Hc.
  rewrite streamCompress_eq.
  destruct (@streamLoop_returns rnd data (levelOf options)
              (usesDictionary options) (chunkSizeOf options) cb c fuel
              0 [] (tick w) Hcs Hc')
    as (chunks & w1 & Hrun).
  - unfold jsLength. lia.
  - exact Hstream.
  - exact Hcb.
  - unfold levelOf, usesDictionary, chunkSizeOf in Hrun. rewrite Hrun.
    eexists. reflexivity.
Qed.

(** C6. In streaming mode with a positive chunk size, a call given fuel
    beyond the input length does not run out of it; it returns whenever the
    codec and the callback do not throw; and when it returns, the chunks it
    handed to the codec, in call order, are the partition of the input into
    contiguous slices of width [chunkSize]: they cover the input without
    gap or overlap, every chunk but the last has length [chunkSize], the
    last has length at most [chunkSize], a non-empty input no longer than
    [chunkSize] gives exactly one chunk and an empty input gives none. *)
Theorem stream_chunks_partition :
  forall (rnd : Q -> Q) (perf_now : nat -> Q) (fuel : nat) (data : bytes)
         (options : CompressionOptions) (cb : option Callback) (w : World),
    streaming options = true ->
    0 < chunkSizeOf options ->
    (List.length data < fuel)%nat ->
    let r := compressWithProgress rnd perf_now fuel data options cb w in
    fst r <> OutOfFuel
    /\ (forall out : bytes,
          fst r = Returned out ->
          exists evs : list Event,
            log (snd r) = log w ++ evs
            /\ partitionOf data (chunkSizeOf options) (codecChunks evs))
    /\ (forall c : ZstdCodec,
          codec (self w) = Some c ->
          (forall chunk d,
              exists cc,
                ZstdStream_compress c chunk (levelOf options) true d
                = inr cc) ->
          (forall f q n, cb = Some f -> f q n = None) ->
          exists out : bytes, fst r = Returned out).
Proof.
  intros rnd perf_now fuel data options cb w Hs Hcs Hfuel r.
  split; [now apply compress_enough_fuel|]. split.
  - intros out Hout. subst r.
    name_run Hrun w'.
    destruct (compress_stream_returned _ _ _ _ _ _ _ Hs Hrun)
      as (c & ccs & Hc & Hccs & Hloop & Hlog).
    eexists. split; [exact Hlog|].
    rewrite codecChunks_loopEvents.
    exact (loopRun_chunks rnd data options cb w c ccs Hcs Hloop).
  - intros c Hc Hcodec Hcb.
    now apply compress_stream_total with (c := c).
Qed.

(** On three bytes at chunk size 2, with the storing codec: the call
    returns, and the codec was handed the partition of the input. *)
Lemma stream_chunks_partition_witness :
  let r := compressWithProgress exactRnd tickClock 4 [x01; x02; x03]
             (streamOptions 2) None (readyWorld storeCodec) in
  exists (out : bytes) (evs : list Event),
    fst r = Returned out
    /\ log (snd r) = log (readyWorld storeCodec) ++ evs
    /\ partitionOf [x01; x02; x03] 2 (codecChunks evs)
    /\ codecChunks evs = [[x01; x02]; [x03]].
Proof.
  pose proof (stream_chunks_partition exactRnd tickClock 4 [x01; x02; x03]
                (streamOptions 2) None (readyWorld storeCodec)
                eq_refl eq_refl ltac:(cbn; lia)) as H.
  cbv zeta in H. destruct H as (_ & Hparts & Hreturns).
  destruct (Hreturns storeCodec eq_refl
              (fun chunk _ => ex_intro _ chunk eq_refl)
              ltac:(discriminate)) as [out Hout].
  destruct (Hparts out Hout) as (evs & Hlog & Hpart).
  exists out, evs. split; [exact Hout|]. split; [exact Hlog|].
  split; [exact Hpart|].
  cbn in Hlog. injection Hlog as <-. reflexivity.
Defined.

(** C5. For a non-empty input compressed in streaming mode with a callback
    (positive chunk size, rounding monotone and exact at 1, fuel beyond the
    input length), the call does not run out of fuel; it returns whenever
    the codec and the callback do not throw; and when it returns, the
    callback has been invoked, the fractions passed to the successive
    invocations are non-decreasing, the last is 1, and the reported
    compressed-chunk lengths sum to the length of the output, which carries
    no length prefix. *)
Theorem progress_reports_monotone :
  forall (rnd : Q -> Q) (perf_now : nat -> Q) (fuel : nat) (data : bytes)
         (options : CompressionOptions) (f : Callback) (w : World),
    (forall x y : Q, (x <= y)%Q -> (rnd x <= rnd y)%Q) ->
    (rnd 1 == 1)%Q ->
    streaming options = true ->
    0 < chunkSizeOf options ->
    data <> [] ->
    (List.length data < fuel)%nat ->
    let r := compressWithProgress rnd perf_now fuel data options (Some f) w in
    fst r <> OutOfFuel
    /\ (forall out : bytes,
          fst r = Returned out ->
          exists evs : list Event,
            log (snd r) = log w ++ evs
            /\ progressWellFormed (progressReports evs) out)
    /\ (forall c : ZstdCodec,
          codec (self w) = Some c ->
          (forall chunk d,
              exists cc,
                ZstdStream_compress c chunk (levelOf options) true d
                = inr cc) ->
          (forall q n, f q n = None) ->
          exists out : bytes, fst r = Returned out).
Proof.
  intros rnd perf_now fuel data options f w Hmono Hone Hs Hcs Hd Hfuel r.
  split; [now apply compress_enough_fuel|]. split.
  - intros out Hout. subst r.
    name_run Hrun w'.
    destruct (compress_stream_returned _ _ _ _ _ _ _ Hs Hrun)
      as (c & ccs & Hc & Hccs & Hloop & Hlog).
    eexists. split; [exact Hlog|].
    assert (Hne : ccs <> []).
    { intros ->. cbn [loopRun] in Hloop.
      destruct data; [congruence|unfold jsLength in Hloop; cbn in Hloop; lia]. }
    unfold progressWellFormed. split; [|split; [|split]].
    + destruct ccs as [|cc ccs]; [congruence|].
      rewrite (progressReports_loopEvents rnd data _ _ _ (cc :: ccs) eq_refl).
      discriminate.
    + eapply fractions_sorted; eauto. lia.
    + eapply fractions_last; eauto. lia.
    + rewrite (progressReports_lengths rnd data _ _ _ ccs eq_refl).
      rewrite sumZ_lengths. now subst out.
  - intros c Hc Hcodec Hcb.
    apply compress_stream_total with (c := c); try assumption.
    intros f' q n Hf'. injection Hf' as <-. apply Hcb.
Qed.

(** On three bytes at chunk size 2, with the marker codec: the call
    returns five bytes, and the callback was told 2/3 then 1, with the
    lengths 3 and 2. *)
Lemma progress_reports_monotone_witness :
  let r := compressWithProgress exactRnd tickClock 4 [x01; x02; x03]
             (streamOptions 2) (Some noThrow) (readyWorld markerCodec) in
  exists (out : bytes) (evs : list Event),
    fst r = Returned out
    /\ log (snd r) = log (readyWorld markerCodec) ++ evs
    /\ progressWellFormed (progressReports evs) out
    /\ progressReports evs = [((2 # 3)%Q, 3); (1%Q, 2)].
Proof.
  pose proof (progress_reports_monotone exactRnd tickClock 4 [x01; x02; x03]
                (streamOptions 2) noThrow (readyWorld markerCodec)
                (fun x y H => H) ltac:(reflexivity)
                eq_refl eq_refl ltac:(discriminate) ltac:(cbn; lia)) as H.
  cbv zeta in H. destruct H as (_ & Hreports & Hreturns).
  destruct (Hreturns markerCodec eq_refl
              (fun chunk _ => ex_intro _ (x5a :: chunk) eq_refl)
              (fun _ _ => eq_refl)) as [out Hout].
  destruct (Hreports out Hout) as (evs & Hlog & Hwf).
  exists out, evs. split; [exact Hout|]. split; [exact Hlog|].
  split; [exact Hwf|].
  cbn in Hlog. injection Hlog as <-. reflexivity.
Defined.

(** *** The streaming container *)

(** C1, as claimed, fails: the one-byte input [01], compressed in streaming
    mode by the storing codec, gives the one-byte output [01], not the frame
    [01 00 00 00 01]. *)
Lemma stream_output_framed_counterexample :
  fst (compressWithProgress exactRnd tickClock 2 [x01] (streamOptions 1) None
         (readyWorld storeCodec)) = Returned [x01]
  /\ framedStream [[x01]] = [x01; x00; x00; x00; x01]
  /\ ~ streamOutputIs framedStream exactRnd tickClock 2 [x01]
         (streamOptions 1) None (readyWorld storeCodec).
Proof.
  split; [reflexivity|]. split; [reflexivity|].
  intros H. specialize (H [x01] eq_refl).
  destruct H as (c & evs & ccs & Hc & Hlog & _ & Hccs & Hout).
  cbn in Hlog. injection Hlog as <-. injection Hc as <-.
  cbn in Hccs. inversion Hccs as [|chunk cc l l' Hcc Hrest]; subst.
  inversion Hrest; subst. injection Hcc as <-.
  discriminate Hout.
Qed.

(** C1, amended. In streaming mode with a positive chunk size and fuel
    beyond the input length, the call does not run out of fuel, and when it
    returns, its output is the plain concatenation, in chunk order, of the
    bytes the codec returned for each chunk of the partition of the input:
    no length prefix, no separator and no padding. *)
Theorem stream_output_concatenation :
  forall (rnd : Q -> Q) (perf_now : nat -> Q) (fuel : nat) (data : bytes)
         (options : CompressionOptions) (cb : option Callback) (w : World),
    streaming options = true ->
    0 < chunkSizeOf options ->
    (List.length data < fuel)%nat ->
    fst (compressWithProgress rnd perf_now fuel data options cb w) <> OutOfFuel
    /\ streamOutputIs (@List.concat byte) rnd perf_now fuel data options cb w.
Proof.
  intros rnd perf_now fuel data options cb w Hs Hcs Hfuel.
  split; [now apply compress_enough_fuel|].
  unfold streamOutputIs. intros out Hout.
  name_run Hrun w'.
  destruct (compress_stream_returned _ _ _ _ _ _ _ Hs Hrun)
    as (c & ccs & Hc & Hccs & Hloop & Hlog).
  exists c, (loopEvents rnd data (levelOf options) (chunkSizeOf options) cb
               (dictArgOf (usesDictionary options) (self w)) 0 ccs), ccs.
  rewrite codecChunks_loopEvents.
  split; [exact Hc|]. split; [exact Hlog|].
  split; [exact (loopRun_chunks rnd data options cb w c ccs Hcs Hloop)|].
  split; [|exact Hccs].
  now apply (loopRun_compressed rnd data (levelOf options) (chunkSizeOf options)
               cb c _ ccs 0).
Qed.

Lemma stream_output_concatenation_witness :
  fst (compressWithProgress exactRnd tickClock 4 [x01; x02; x03]
         (streamOptions 2) None (readyWorld markerCodec)) <> OutOfFuel
  /\ streamOutputIs (@List.concat byte) exactRnd tickClock 4 [x01; x02; x03]
       (streamOptions 2) None (readyWorld markerCodec).
Proof.
  apply (stream_output_concatenation exactRnd tickClock 4 [x01; x02; x03]
           (streamOptions 2) None (readyWorld markerCodec)).
  - reflexivity.
  - reflexivity.
  - cbn. lia.
Defined.

(** *** Decompression *)

(** C4, as claimed, fails: the storing codec turns the six bytes
    [05 00 00 00 01 02] into themselves in streaming mode; without its last
    byte that buffer starts with a prefix that declares 5 bytes where 1
    remains, and [decompress] returns it whole instead of throwing an error
    of class [FramingError]. *)
Lemma truncated_stream_counterexample :
  let r := compressWithProgress exactRnd tickClock 7
             [x05; x00; x00; x00; x01; x02] (streamOptions 8) None
             (readyWorld storeCodec) in
  let truncated := removelast [x05; x00; x00; x00; x01; x02] in
  fst r = Returned [x05; x00; x00; x00; x01; x02]
  /\ prefixOverruns truncated
  /\ fst (decompress exactRnd tickClock truncated None (snd r))
     = Returned [x05; x00; x00; x00; x01]
  /\ forall e : JsError,
       errName e = "FramingError" ->
       fst (decompress exactRnd tickClock truncated None (snd r)) <> Thrown e.
Proof.
  cbv zeta. split; [reflexivity|]. split; [vm_compute; reflexivity|].
  split; [reflexivity|]. intros e _. discriminate.
Qed.

(** C4, amended. [decompress] reads no length prefix: with an initialised
    codec it hands the whole buffer to the codec's stream decompressor in
    one call and returns what that returns, or throws
    [Error("Decompression failed: " + message)] when the codec throws;
    without a codec it throws [Error("ZSTD not initialized")].  Every error
    it throws has class [Error]. *)
Theorem decompress_one_codec_call :
  forall (rnd : Q -> Q) (perf_now : nat -> Q) (compressedData : bytes)
         (useDict : option bool) (w : World),
    let r := decompress rnd perf_now compressedData useDict w in
    let d := dictArgOf (withDefault false useDict) (self w) in
    (forall e : JsError, fst r = Thrown e -> errName e = "Error")
    /\ (codec (self w) = None ->
        r = (Thrown (newError "ZSTD not initialized"), w))
    /\ (forall c : ZstdCodec,
          codec (self w) = Some c ->
          log (snd r) = log w ++ [StreamDecompressCall compressedData d]
          /\ fst r
             = match ZstdStream_decompress c compressedData d with
               | inr out => Returned out
               | inl e =>
                   Thrown (newError ("Decompression failed: " ++ errMessage e))
               end).
Proof.
  intros rnd perf_now compressedData useDict w r d. subst r d.
  destruct (codec (self w)) as [c|] eqn:Hc.
  - rewrite (decompress_eq rnd perf_now compressedData useDict w Hc).
    split; [|split; [discriminate|]].
    + intros e. destruct (ZstdStream_decompress c compressedData _);
        cbn [fst]; intros He; [|discriminate He].
      now injection He as <-.
    + intros c' Hc'. injection Hc' as <-.
      destruct (ZstdStream_decompress c compressedData _); split; reflexivity.
  - rewrite (decompress_uninitialized rnd perf_now compressedData useDict w Hc).
    split; [|split; [reflexivity|discriminate]].
    intros e He. cbn in He. now injection He as <-.
Qed.

(** *** Round trip *)

Lemma markerCodec_inverts (lvl : Z) (d : DictArg) :
  codecInverts markerCodec lvl d.
Proof.
  split; intros x y H; cbn in H; injection H as <-; reflexivity.
Qed.

(** C2, as claimed, fails: the marker codec is an inverse pair, yet the two
    bytes [01 02] compressed in streaming mode with chunk size 1 decompress
    to the three bytes [01 5a 02]; and the empty input, compressed in
    streaming mode to the empty buffer, does not decompress at all. *)
Lemma roundtrip_counterexample :
  (forall (lvl : Z) (d : DictArg), codecInverts markerCodec lvl d)
  /\ let r := compressWithProgress exactRnd tickClock 3 [x01; x02]
                (streamOptions 1) None (readyWorld markerCodec) in
     fst r = Returned [x5a; x01; x5a; x02]
     /\ fst (decompress exactRnd tickClock [x5a; x01; x5a; x02] None (snd r))
        = Returned [x01; x5a; x02]
     /\ fst (decompress exactRnd tickClock [x5a; x01; x5a; x02] None (snd r))
        <> Returned [x01; x02]
     /\ let r0 := compressWithProgress exactRnd tickClock 3 []
                    (streamOptions 1) None (readyWorld markerCodec) in
        fst r0 = Returned []
        /\ fst (decompress exactRnd tickClock [] None (snd r0)) <> Returned [].
Proof.
  split; [exact markerCodec_inverts|].
  cbv zeta. split; [reflexivity|]. split; [reflexivity|].
  split; [discriminate|]. split; [reflexivity|discriminate].
Qed.

Lemma compress_simple_returned (rnd : Q -> Q) (perf_now : nat -> Q)
    (fuel : nat) (data : bytes) (options : CompressionOptions)
    (cb : option Callback) (w : World) (out : bytes) (w' : World) :
  streaming options = false ->
  compressWithProgress rnd perf_now fuel data options cb w = (Returned out, w') ->
  exists c : ZstdCodec,
    codec (self w) = Some c
    /\ ZstdSimple_compress c data (levelOf options)
         (dictArgOf (usesDictionary options) (self w)) = inr out
    /\ log w' = log w
                ++ [SimpleCompressCall data (levelOf options)
                      (dictArgOf (usesDictionary options) (self w))].
Proof.
  intros Hs Hrun.
  destruct (codec (self w)) as [c|] eqn:Hc.
  2:{ rewrite compressWithProgress_uninitialized in Hrun by assumption.
      discriminate Hrun. }
  rewrite (compressWithProgress_eq rnd perf_now fuel data options cb w Hc)
    in Hrun.
  unfold compressCore in Hrun. unfold streaming in Hs. rewrite Hs in Hrun.
  rewrite (callSimpleCompress_eq _ _ _ (tick w) Hc) in Hrun.
  exists c. split; [reflexivity|].
  unfold levelOf, usesDictionary. cbn [tick self] in Hrun.
  destruct (ZstdSimple_compress c data _ _) as [e|o]; [discriminate Hrun|].
  injection Hrun as <- <-. split; reflexivity.
Qed.

(** A streaming run over a non-empty input that fits in one chunk made one
    codec call, on the whole input, and returned what the codec returned. *)
Lemma single_chunk_run (rnd : Q -> Q) (data : bytes) (lvl cs : Z)
    (cb : option Callback) (c : ZstdCodec) (d : DictArg) (ccs : list bytes) :
  data <> [] ->
  jsLength data <= cs ->
  loopRun rnd data lvl cs cb c d 0 ccs ->
  ZstdStream_compress c data lvl true d = inr (List.concat ccs).
Proof.
  intros Hd Hfit Hrun.
  assert (Hlen : 0 < jsLength data).
  { destruct data; [congruence|unfold jsLength; cbn; lia]. }
  destruct ccs as [|cc [|cc' rest]]; cbn [loopRun] in Hrun.
  - lia.
  - destruct Hrun as (_ & Hcc & _ & _).
    rewrite jsSlice_whole in Hcc by lia.
    cbn [List.concat]. now rewrite app_nil_r.
  - destruct Hrun as (_ & _ & _ & Hnext & _). lia.
Qed.

(** C2, amended. Let the codec be an inverse pair at the level and
    dictionary argument of the call and, for a streaming call whose input
    is empty or longer than one chunk, let its stream frames moreover be
    self-delimiting.  With a positive chunk size and fuel beyond the input
    length, compression does not run out of fuel, and when it returns
    [out], then [decompress] with the same [useDictionary] flag, on any
    processor with the same codec and the same stored dictionary, returns
    the input. *)
Theorem roundtrip_self_delimiting :
  forall (rnd : Q -> Q) (perf_now : nat -> Q) (fuel : nat) (data : bytes)
         (options : CompressionOptions) (cb : option Callback)
         (w w2 : World) (c : ZstdCodec),
    codec (self w) = Some c ->
    0 < chunkSizeOf options ->
    (List.length data < fuel)%nat ->
    codecInverts c (levelOf options)
      (dictArgOf (usesDictionary options) (self w)) ->
    (streaming options = true ->
     data = [] \/ chunkSizeOf options < jsLength data ->
     codecSelfDelimiting c (levelOf options)
       (dictArgOf (usesDictionary options) (self w))) ->
    codec (self w2) = Some c ->
    dictionary (self w2) = dictionary (self w) ->
    let r := compressWithProgress rnd perf_now fuel data options cb w in
    fst r <> OutOfFuel
    /\ forall out : bytes,
         fst r = Returned out ->
         fst (decompress rnd perf_now out (useDictionary options) w2)
         = Returned data.
Proof.
  intros rnd perf_now fuel data options cb w w2 c Hc Hcs Hfuel
    [Hsimple Hstream] Hdelim Hc2 Hdict r.
  split; [now apply compress_enough_fuel|].
  intros out Hout. subst r.
  name_run Hrun w'.
  rewrite (decompress_eq rnd perf_now out (useDictionary options) w2 Hc2).
  assert (Hd : dictArgOf (withDefault false (useDictionary options)) (self w2)
               = dictArgOf (usesDictionary options) (self w)).
  { unfold dictArgOf, usesDictionary. now rewrite Hdict. }
  rewrite Hd.
  destruct (streaming options) eqn:Hs.
  - destruct (compress_stream_returned _ _ _ _ _ _ _ Hs Hrun)
      as (c' & ccs & Hc' & Hccs & Hloop & _).
    rewrite Hc in Hc'. injection Hc' as <-.
    assert (Hcase : (data <> [] /\ jsLength data <= chunkSizeOf options)
                    \/ (data = [] \/ chunkSizeOf options < jsLength data)).
    { destruct data as [|b data]; [right; now left|].
      destruct (Z_le_gt_dec (jsLength (b :: data)) (chunkSizeOf options));
        [left; split; [discriminate|assumption]|right; right; lia]. }
    destruct Hcase as [[Hne Hfit]|Hmany].
    + pose proof (single_chunk_run rnd data (levelOf options)
                    (chunkSizeOf options) cb c _ ccs Hne Hfit Hloop) as Hone.
      rewrite <- Hccs in Hone. now rewrite (Hstream _ _ Hone).
    + specialize (Hdelim eq_refl Hmany).
      pose proof (loopRun_compressed rnd data (levelOf options)
                    (chunkSizeOf options) cb c _ ccs 0 Hloop) as Hall.
      apply Hdelim in Hall. rewrite <- Hccs in Hall. rewrite Hall.
      destruct (loopRun_chunks rnd data options cb w c ccs Hcs Hloop)
        as [-> _].
      reflexivity.
  - destruct (compress_simple_returned _ _ _ _ _ _ _ _ _ Hs Hrun)
      as (c' & Hc' & Hout & _).
    rewrite Hc in Hc'. injection Hc' as <-.
    now rewrite (Hsimple _ _ Hout).
Qed.

Lemma storeCodec_inverts (lvl : Z) (d : DictArg) :
  codecInverts storeCodec lvl d.
Proof.
  split; intros x y H; cbn in H; injection H as <-; reflexivity.
Qed.

Lemma storeCodec_self_delimiting (lvl : Z) (d : DictArg) :
  codecSelfDelimiting storeCodec lvl d.
Proof.
  intros xs ys H. cbn. f_equal.
  induction H as [|x y xs ys Hxy _ IH]; [reflexivity|].
  cbn in Hxy. injection Hxy as <-. cbn. now rewrite IH.
Qed.

(** Three round trips: the marker codec, which is an inverse pair and not
    self-delimiting, without streaming and with one streaming chunk; the
    storing codec with two streaming chunks. *)
Lemma roundtrip_self_delimiting_witness :
  (let r := compressWithProgress exactRnd tickClock 4 [x01; x02; x03]
              (dictionaryOptions 2) None (readyWorld markerCodec) in
   fst r <> OutOfFuel
   /\ forall out : bytes,
        fst r = Returned out ->
        fst (decompress exactRnd tickClock out
               (useDictionary (dictionaryOptions 2)) (readyWorld markerCodec))
        = Returned [x01; x02; x03])
  /\ (let r := compressWithProgress exactRnd tickClock 4 [x01; x02; x03]
                 (streamOptions 3) None (readyWorld markerCodec) in
      fst r <> OutOfFuel
      /\ forall out : bytes,
           fst r = Returned out ->
           fst (decompress exactRnd tickClock out
                  (useDictionary (streamOptions 3)) (readyWorld markerCodec))
           = Returned [x01; x02; x03])
  /\ (let r := compressWithProgress exactRnd tickClock 4 [x01; x02; x03]
                 (streamOptions 2) None (readyWorld storeCodec) in
      fst r <> OutOfFuel
      /\ forall out : bytes,
           fst r = Returned out ->
           fst (decompress exactRnd tickClock out
                  (useDictionary (streamOptions 2)) (readyWorld storeCodec))
           = Returned [x01; x02; x03]).
Proof.
  split; [|split].
  - apply (roundtrip_self_delimiting exactRnd tickClock 4 [x01; x02; x03]
             (dictionaryOptions 2) None (readyWorld markerCodec)
             (readyWorld markerCodec) markerCodec).
    + reflexivity.
    + reflexivity.
    + cbn. lia.
    + apply markerCodec_inverts.
    + intros H. discriminate H.
    + reflexivity.
    + reflexivity.
  - apply (roundtrip_self_delimiting exactRnd tickClock 4 [x01; x02; x03]
             (streamOptions 3) None (readyWorld markerCodec)
             (readyWorld markerCodec) markerCodec).
    + reflexivity.
    + reflexivity.
    + cbn. lia.
    + apply markerCodec_inverts.
    + intros _ [H|H]; [discriminate H|cbn in H; lia].
    + reflexivity.
    + reflexivity.
  - apply (roundtrip_self_delimiting exactRnd tickClock 4 [x01; x02; x03]
             (streamOptions 2) None (readyWorld storeCodec)
             (readyWorld storeCodec) storeCodec).
    + reflexivity.
    + reflexivity.
    + cbn. lia.
    + apply storeCodec_inverts.
    + intros _ _. apply storeCodec_self_delimiting.
    + reflexivity.
    + reflexivity.
Defined.

(** *** Options are not validated *)

(** C3, as claimed, fails.  On a processor with a codec and no dictionary,
    a call with [useDictionary: true] and [chunkSize: 0] returns the codec's
    output, after calling the codec with a [null] dictionary; and in
    streaming mode with [chunkSize: 0] the codec is called again and again.
    Neither call throws an error of class [ConfigError]. *)
Lemma unchecked_options_counterexample :
  let r := compressWithProgress exactRnd tickClock 1 [x01]
             (dictionaryOptions 0) None (readyWorld storeCodec) in
  let r' := compressWithProgress exactRnd tickClock 5 [x01]
              (streamOptions 0) None (readyWorld storeCodec) in
  dictionary (self (readyWorld storeCodec)) = None
  /\ fst r = Returned [x01]
  /\ log (snd r)
     = log (readyWorld storeCodec)
       ++ [SimpleCompressCall [x01] 5 (DictPassed None)]
  /\ fst r' = OutOfFuel
  /\ compressCalls (log (snd r')) = 5%nat
  /\ forall e : JsError,
       errName e = "ConfigError" -> fst r <> Thrown e /\ fst r' <> Thrown e.
Proof.
  cbv zeta. repeat (split; [reflexivity|]).
  intros e _. split; discriminate.
Qed.

Lemma compress_first_call (rnd : Q -> Q) (perf_now : nat -> Q) (fuel : nat)
    (data : bytes) (options : CompressionOptions) (cb : option Callback)
    (w : World) (c : ZstdCodec) :
  codec (self w) = Some c ->
  streaming options = true ->
  data <> [] ->
  exists evs : list Event,
    log (snd (compressWithProgress rnd perf_now (S fuel) data options cb w))
    = log w
      ++ StreamCompressCall (jsSlice data 0 (0 + chunkSizeOf options))
           (levelOf options) (dictArgOf (usesDictionary options) (self w))
         :: evs.
Proof.
  intros Hc Hs Hd.
  assert (Hlen : 0 < jsLength data).
  { destruct data; [congruence|unfold jsLength; cbn; lia]. }
  rewrite (compressWithProgress_eq rnd perf_now (S fuel) data options cb w Hc).
  unfold compressCore. unfold streaming in Hs. rewrite Hs.
  rewrite streamCompress_eq.
  assert (Hc' : codec (self (tick w)) = Some c) by exact Hc.
  rewrite (streamLoop_step rnd data _ _ _ cb fuel [] (tick w) Hc' Hlen).
  fold (chunkSizeOf options) (levelOf options) (usesDictionary options).
  change (self (tick w)) with (self w).
  set (call := StreamCompressCall _ _ _).
  destruct (ZstdStream_compress c _ _ true _) as [e|cc].
  { exists []. reflexivity. }
  destruct cb as [f|].
  - destruct (f _ _) as [e|].
    { eexists. cbn. reflexivity. }
    match goal with
    | |- context [streamLoop ?r ?n ?dt ?l ?u ?s ?k ?i ?ch ?w0] =>
        destruct (streamLoop_appends r dt l u s k n i ch w0 Hc) as [evs Hevs];
        destruct (streamLoop r n dt l u s k i ch w0) as [[chunks|e|] w1]
    end; cbn [snd] in Hevs; subst w1; cbn; rewrite <- app_assoc; cbn;
      eexists; reflexivity.
  - match goal with
    | |- context [streamLoop ?r ?n ?dt ?l ?u ?s ?k ?i ?ch ?w0] =>
        destruct (streamLoop_appends r dt l u s k n i ch w0 Hc) as [evs Hevs];
        destruct (streamLoop r n dt l u s k i ch w0) as [[chunks|e|] w1]
    end; cbn [snd] in Hevs; subst w1; cbn; rewrite <- app_assoc; cbn;
      eexists; reflexivity.
Qed.

(** C3, amended. [compressWithProgress] does not validate its options.  Its
    only check is that the codec is set: without one it throws
    [Error("ZSTD not initialized")] and does nothing else.  With a codec it
    goes to the codec whatever [useDictionary], the stored dictionary and
    [chunkSize] are, passing [this.dictionary] ([null] when none was made)
    when [useDictionary] is set: in non-streaming mode once, on the whole
    input, and the call returns what the codec returns or throws
    [Error("Compression failed: " + message)]; in streaming mode, on a
    non-empty input, first on [slice(0, chunkSize)].  Every error it throws
    has class [Error]. *)
Theorem compress_options_unchecked :
  forall (rnd : Q -> Q) (perf_now : nat -> Q) (fuel : nat) (data : bytes)
         (options : CompressionOptions) (cb : option Callback) (w : World),
    let r := compressWithProgress rnd perf_now (S fuel) data options cb w in
    let d := dictArgOf (usesDictionary options) (self w) in
    (forall e : JsError, fst r = Thrown e -> errName e = "Error")
    /\ (codec (self w) = None ->
        r = (Thrown (newError "ZSTD not initialized"), w))
    /\ (forall c : ZstdCodec,
          codec (self w) = Some c ->
          streaming options = false ->
          log (snd r) = log w ++ [SimpleCompressCall data (levelOf options) d]
          /\ fst r
             = match ZstdSimple_compress c data (levelOf options) d with
               | inr out => Returned out
               | inl e =>
                   Thrown (newError ("Compression failed: " ++ errMessage e))
               end)
    /\ (forall c : ZstdCodec,
          codec (self w) = Some c ->
          streaming options = true ->
          data <> [] ->
          exists evs : list Event,
            log (snd r)
            = log w
              ++ StreamCompressCall (jsSlice data 0 (0 + chunkSizeOf options))
                   (levelOf options) d
                 :: evs).
Proof.
  intros rnd perf_now fuel data options cb w r d. subst r d.
  split; [|split; [|split]].
  - intros e. destruct (codec (self w)) as [c|] eqn:Hc.
    + rewrite (compressWithProgress_eq rnd perf_now (S fuel) data options cb w Hc).
      destruct (compressCore _ _ _ _ _ _) as [[out|e0|] w1]; cbn [fst];
        intros He; try discriminate He.
      now injection He as <-.
    + rewrite compressWithProgress_uninitialized by assumption.
      cbn [fst]. intros He. now injection He as <-.
  - apply compressWithProgress_uninitialized.
  - intros c Hc Hs.
    rewrite (compressWithProgress_eq rnd perf_now (S fuel) data options cb w Hc).
    unfold compressCore. unfold streaming in Hs. rewrite Hs.
    rewrite (callSimpleCompress_eq _ _ _ (tick w) Hc).
    unfold levelOf, usesDictionary. cbn [tick self].
    destruct (ZstdSimple_compress c data _ _); split; reflexivity.
  - intros c Hc Hs Hd. now apply compress_first_call with (c := c).
Qed.

(** *** The dictionary *)

(** C7. [createDictionary] returns the first [min(sample.length, 1024)]
    bytes of the sample, whatever the state of the processor it is called
    on (the same sample always gives the same bytes), and stores them as
    the dictionary of the processor; it leaves the codec and the metrics as
    they are. *)
Theorem createDictionary_prefix :
  forall (sample : bytes) (w : World),
    let r := createDictionary sample w in
    let d := firstn (Nat.min (List.length sample) 1024) sample in
    fst r = Returned (Some d)
    /\ dictionary (self (snd r)) = Some d
    /\ jsLength d = Z.min (jsLength sample) 1024
    /\ (forall w2 : World, fst (createDictionary sample w2) = fst r)
    /\ codec (self (snd r)) = codec (self w)
    /\ performanceMetrics (self (snd r)) = performanceMetrics (self w).
Proof.
  intros sample w r d.
  assert (Hslice : jsSlice sample 0 (Z.min (jsLength sample) 1024) = d).
  { pose proof (jsLength_nonneg sample).
    rewrite jsSlice_firstn_skipn by lia. cbn [Z.to_nat skipn]. unfold d.
    f_equal. unfold jsLength. lia. }
  assert (Hrun : forall w0 : World,
             createDictionary sample w0
             = (Returned (Some d),
                mkWorld (setDictionary d (self w0)) (clock w0)
                  (log w0 ++ [ConsoleLog "Created dictionary of size:"
                                (Some (jsLength d))]))).
  { intros w0. unfold createDictionary.
    unfold_monad.
    cbn [self clock log setDictionary dictionary option_map].
    now rewrite Hslice. }
  subst r. rewrite Hrun. cbn [fst snd self].
  repeat split.
  - unfold d, jsLength. rewrite length_firstn. lia.
  - intros w2. now rewrite Hrun.
Qed.

(** *** Metrics *)

Lemma init_metrics (ZstdInit : JsError + ZstdCodec) (w : World) :
  performanceMetrics (self (snd (init ZstdInit w)))
  = performanceMetrics (self w).
Proof.
  unfold init.
  unfold_monad.
  destruct ZstdInit; reflexivity.
Qed.

Lemma setupOnly_metrics (ZstdInit : JsError + ZstdCodec) (w : World) :
  setupOnly ZstdInit w -> performanceMetrics (self w) = mkMetrics 0 0 0 0.
Proof.
  induction 1 as [k l|w Hw IH|w sample Hw IH].
  - reflexivity.
  - now rewrite init_metrics.
  - now rewrite createDictionary_eq.
Qed.

(** C8. After a call of [compressWithProgress] that returns [out] for the
    input [data], the snapshot of [getMetrics] has [originalSize] equal to
    the length of [data], [compressedSize] equal to the length of [out] and
    [compressionRatio] equal to [originalSize / max(compressedSize, 1)];
    and on a processor that has only been set up, every field of the
    snapshot is 0 (rounding being exact at 0). *)
Theorem metrics_snapshot :
  forall (rnd : Q -> Q) (perf_now : nat -> Q) (ZstdInit : JsError + ZstdCodec)
         (fuel : nat) (data : bytes) (options : CompressionOptions)
         (cb : option Callback) (w w' w0 : World) (out : bytes),
    (rnd 0 == 0)%Q ->
    setupOnly ZstdInit w0 ->
    compressWithProgress rnd perf_now fuel data options cb w = (Returned out, w') ->
    snapshotZero (getMetrics rnd (self w0))
    /\ let s := getMetrics rnd (self w') in
       snapOriginalSize s = jsLength data
       /\ snapCompressedSize s = jsLength out
       /\ compressionRatio s
          = jsDiv rnd (snapOriginalSize s) (Z.max (snapCompressedSize s) 1).
Proof.
  intros rnd perf_now ZstdInit fuel data options cb w w' w0 out Hzero Hsetup Hrun.
  split.
  - unfold snapshotZero, getMetrics.
    rewrite (setupOnly_metrics ZstdInit w0 Hsetup). cbn.
    repeat split. exact Hzero.
  - destruct (codec (self w)) as [c|] eqn:Hc.
    2:{ rewrite compressWithProgress_uninitialized in Hrun by assumption.
        discriminate Hrun. }
    rewrite (compressWithProgress_eq rnd perf_now fuel data options cb w Hc)
      in Hrun.
    destruct (compressCore _ _ _ _ _ _) as [[o|e|] w1]; try discriminate Hrun.
    injection Hrun as <- <-.
    cbn. repeat split.
    f_equal. pose proof (jsLength_nonneg o). unfold jsOr1.
    destruct (Z.eqb_spec (jsLength o) 0); lia.
Qed.

Lemma metrics_snapshot_witness :
  snapshotZero (getMetrics exactRnd (self freshWorld))
  /\ let s := getMetrics exactRnd
                (self (snd (compressWithProgress exactRnd tickClock 4
                              [x01; x02; x03] (streamOptions 2) None
                              (readyWorld markerCodec)))) in
     snapOriginalSize s = jsLength [x01; x02; x03]
     /\ snapCompressedSize s = jsLength [x5a; x01; x02; x5a; x03]
     /\ compressionRatio s
        = jsDiv exactRnd (snapOriginalSize s) (Z.max (snapCompressedSize s) 1).
Proof.
  apply (metrics_snapshot exactRnd tickClock (inr storeCodec) 4
           [x01; x02; x03] (streamOptions 2) None (readyWorld markerCodec)
           (snd (compressWithProgress exactRnd tickClock 4 [x01; x02; x03]
                   (streamOptions 2) None (readyWorld markerCodec)))
           freshWorld [x5a; x01; x02; x5a; x03]).
  - reflexivity.
  - apply setup_new.
  - reflexivity.
Defined.

(** A call that does not return leaves the processor as it was. *)
Lemma compress_not_returned (rnd : Q -> Q) (perf_now : nat -> Q) (fuel : nat)
    (data : bytes) (options : CompressionOptions) (cb : option Callback)
    (w : World) :
  let r := compressWithProgress rnd perf_now fuel data options cb w in
  (forall out : bytes, fst r <> Returned out) -> self (snd r) = self w.
Proof.
  intros r Hnot. subst r.
  destruct (codec (self w)) as [c|] eqn:Hc.
  - rewrite (compressWithProgress_eq rnd perf_now fuel data options cb w Hc)
      in *.
    assert (Hc' : codec (self (tick w)) = Some c) by exact Hc.
    destruct (compressCore_appends rnd fuel data options cb (tick w) Hc')
      as [evs Hevs].
    destruct (compressCore _ _ _ _ _ _) as [[o|e|] w1]; cbn [fst snd] in *.
    + now destruct (Hnot o).
    + now subst w1.
    + now subst w1.
  - now rewrite compressWithProgress_uninitialized by assumption.
Qed.

(** C9. When [compressWithProgress] throws, whether for a missing codec, a
    failure of the codec or of the callback, the metrics record (and with it
    the whole processor) is as it was before the call: the three metrics of
    a compression are written only on the path that returns. *)
Theorem metrics_untouched_on_throw :
  forall (rnd : Q -> Q) (perf_now : nat -> Q) (fuel : nat) (data : bytes)
         (options : CompressionOptions) (cb : option Callback) (w : World)
         (e : JsError),
    let r := compressWithProgress rnd perf_now fuel data options cb w in
    fst r = Thrown e ->
    performanceMetrics (self (snd r)) = performanceMetrics (self w)
    /\ self (snd r) = self w.
Proof.
  intros rnd perf_now fuel data options cb w e r Hthrown.
  assert (H : self (snd r) = self w).
  { apply compress_not_returned. fold r. rewrite Hthrown. discriminate. }
  now rewrite H.
Qed.

Lemma metrics_untouched_on_throw_witness :
  let r := compressWithProgress exactRnd tickClock 4 [x01; x02; x03]
             (streamOptions 2) None (readyWorld failingCodec) in
  performanceMetrics (self (snd r))
  = performanceMetrics (self (readyWorld failingCodec))
  /\ self (snd r) = self (readyWorld failingCodec).
Proof.
  apply (metrics_untouched_on_throw exactRnd tickClock 4 [x01; x02; x03]
           (streamOptions 2) None (readyWorld failingCodec)
           (newError "Compression failed: Src size is incorrect")).
  reflexivity.
Defined.

(** C10. A call of [decompress] that returns writes [decompressionTime] and
    nothing else of the processor: [originalSize], [compressedSize] and
    [compressionTime] are unchanged, and so are the stored dictionary and
    the codec. *)
Theorem decompress_writes_time_only :
  forall (rnd : Q -> Q) (perf_now : nat -> Q) (compressedData : bytes)
         (useDict : option bool) (w w' : World) (out : bytes),
    decompress rnd perf_now compressedData useDict w = (Returned out, w') ->
    let m := performanceMetrics (self w) in
    let m' := performanceMetrics (self w') in
    originalSize m' = originalSize m
    /\ compressedSize m' = compressedSize m
    /\ compressionTime m' = compressionTime m
    /\ decompressionTime m'
       = jsSub rnd (perf_now (S (clock w))) (perf_now (clock w))
    /\ dictionary (self w') = dictionary (self w)
    /\ codec (self w') = codec (self w).
Proof.
  intros rnd perf_now compressedData useDict w w' out Hrun.
  destruct (codec (self w)) as [c|] eqn:Hc.
  - rewrite (decompress_eq rnd perf_now compressedData useDict w Hc) in Hrun.
    destruct (ZstdStream_decompress c compressedData _) as [e|o];
      [discriminate Hrun|].
    injection Hrun as <- <-. cbn. rewrite Hc. repeat split.
  - rewrite decompress_uninitialized in Hrun by assumption.
    discriminate Hrun.
Qed.

Lemma decompress_writes_time_only_witness :
  let w := snd (compressWithProgress exactRnd tickClock 4 [x01; x02; x03]
                  (streamOptions 2) None (readyWorld storeCodec)) in
  let w' := snd (decompress exactRnd tickClock [x01; x02; x03] None w) in
  let m := performanceMetrics (self w) in
  let m' := performanceMetrics (self w') in
  originalSize m' = originalSize m
  /\ compressedSize m' = compressedSize m
  /\ compressionTime m' = compressionTime m
  /\ decompressionTime m'
     = jsSub exactRnd (tickClock (S (clock w))) (tickClock (clock w))
  /\ dictionary (self w') = dictionary (self w)
  /\ codec (self w') = codec (self w).
Proof.
  apply (decompress_writes_time_only exactRnd tickClock [x01; x02; x03] None
           (snd (compressWithProgress exactRnd tickClock 4 [x01; x02; x03]
                   (streamOptions 2) None (readyWorld storeCodec)))
           (snd (decompress exactRnd tickClock [x01; x02; x03] None
                   (snd (compressWithProgress exactRnd tickClock 4
                           [x01; x02; x03] (streamOptions 2) None
                           (readyWorld storeCodec)))))
           [x01; x02; x03]).
  reflexivity.
Defined.


(** ** Further properties of the class *)

(** *** Setting up *)

(** X1. An [init] whose library fails to load throws
    [Error("Failed to initialize ZSTD: " + message)] and changes nothing:
    the processor keeps the codec it had.  On a processor that had none, a
    later [compressWithProgress] or [decompress] therefore throws
    [Error("ZSTD not initialized")], again without changing anything. *)
Theorem init_failure_harmless :
  forall (rnd : Q -> Q) (perf_now : nat -> Q) (e : JsError) (w : World),
    init (inl e) w
    = (Thrown (newError ("Failed to initialize ZSTD: " ++ errMessage e)), w)
    /\ (codec (self w) = None ->
        forall (fuel : nat) (data : bytes) (options : CompressionOptions)
               (cb : option Callback) (useDict : option bool),
          compressWithProgress rnd perf_now fuel data options cb
            (snd (init (inl e) w))
          = (Thrown (newError "ZSTD not initialized"), w)
          /\ decompress rnd perf_now data useDict (snd (init (inl e) w))
             = (Thrown (newError "ZSTD not initialized"), w)).
Proof.
  intros rnd perf_now e w. rewrite init_eq. split; [reflexivity|].
  intros Hc fuel data options cb useDict. cbn [snd].
  split.
  - now apply compressWithProgress_uninitialized.
  - now apply decompress_uninitialized.
Qed.

(** X2. [init] and [createDictionary] can be called in either order: a
    successful [init] keeps a dictionary made before it, [createDictionary]
    keeps the codec, and both orders leave the same processor, with the
    codec loaded, the dictionary of the sample and the metrics untouched. *)
Theorem init_createDictionary_commute :
  forall (c : ZstdCodec) (sample : bytes) (w : World),
    let w1 := snd (createDictionary sample (snd (init (inr c) w))) in
    let w2 := snd (init (inr c) (snd (createDictionary sample w))) in
    self w1 = self w2
    /\ codec (self w1) = Some c
    /\ dictionary (self w1) = Some (dictionaryOf sample)
    /\ performanceMetrics (self w1) = performanceMetrics (self w).
Proof.
  intros c sample w w1 w2. subst w1 w2.
  repeat (rewrite ?createDictionary_eq, ?init_eq; cbn [snd self]).
  repeat split.
Qed.

Lemma dictionaryOf_length (sample : bytes) :
  jsLength (dictionaryOf sample) = Z.min (jsLength sample) 1024.
Proof. unfold dictionaryOf, jsLength. rewrite length_firstn. lia. Qed.

Lemma dictionaryOf_idempotent (sample : bytes) :
  dictionaryOf (dictionaryOf sample) = dictionaryOf sample.
Proof.
  unfold dictionaryOf at 1. apply firstn_all2.
  pose proof (dictionaryOf_length sample). unfold jsLength in *. lia.
Qed.

(** X3. [createDictionary] is idempotent: given the dictionary it returned
    for some sample, on any processor, it returns and stores that same
    dictionary; and what it returns is never longer than 1024 bytes. *)
Theorem createDictionary_idempotent :
  forall (sample d : bytes) (w w' : World),
    fst (createDictionary sample w) = Returned (Some d) ->
    fst (createDictionary d w') = Returned (Some d)
    /\ dictionary (self (snd (createDictionary d w'))) = Some d
    /\ jsLength d <= 1024.
Proof.
  intros sample d w w' H. rewrite createDictionary_eq in H. cbn [fst] in H.
  injection H as <-.
  rewrite createDictionary_eq. cbn [fst snd self setDictionary dictionary].
  rewrite dictionaryOf_idempotent. repeat split.
  rewrite dictionaryOf_length. lia.
Qed.

Lemma createDictionary_idempotent_witness :
  fst (createDictionary [x01; x02] freshWorld) = Returned (Some [x01; x02])
  /\ dictionary (self (snd (createDictionary [x01; x02] freshWorld)))
     = Some [x01; x02]
  /\ jsLength [x01; x02] <= 1024.
Proof.
  apply (createDictionary_idempotent [x01; x02] [x01; x02]
           (readyWorld storeCodec) freshWorld).
  reflexivity.
Defined.

(** *** Runs of the loop that do not return *)

Section LoopOutcomes.

Variable rnd : Q -> Q.
Variables (data : bytes) (lvl : Z) (useDict : bool) (cs : Z).
Variable cb : option Callback.
Variable c : ZstdCodec.

(** A run that throws: some iterations went through, and the next one
    threw. *)
Lemma streamLoop_thrown (fuel : nat) :
  forall (i : Z) (chunks : list bytes) (w : World) (e : JsError) (w' : World),
    codec (self w) = Some c ->
    streamLoop rnd fuel data lvl useDict cs cb i chunks w = (Thrown e, w') ->
    let d := dictArgOf useDict (self w) in
    exists (ccs : list bytes) (evs : list Event),
      loopSteps rnd data lvl cs cb c d i ccs
      /\ i + Z.of_nat (List.length ccs) * cs < jsLength data
      /\ iterationThrows rnd data lvl cs cb c d
           (i + Z.of_nat (List.length ccs) * cs) e evs
      /\ w' = appendLog w (loopEvents rnd data lvl cs cb d i ccs ++ evs).
Proof.
  induction fuel as [|fuel IH]; intros i chunks w e w' Hc Hrun d;
    [discriminate Hrun|].
  destruct (Z_lt_le_dec i (jsLength data)) as [Hi|Hi].
  2:{ rewrite streamLoop_exit in Hrun by assumption. discriminate Hrun. }
  rewrite (@streamLoop_step rnd data lvl useDict cs cb fuel i chunks w c Hc Hi)
    in Hrun.
  fold d in Hrun.
  destruct (ZstdStream_compress c _ lvl true d) as [e0|cc] eqn:Hcc.
  { injection Hrun as <- <-. exists []. eexists.
    cbn [List.length loopSteps loopEvents app]. rewrite Z.add_0_r.
    split; [exact I|]. split; [exact Hi|]. split; [|reflexivity].
    left. split; [exact Hcc|reflexivity]. }
  destruct cb as [f|] eqn:Hcb.
  - destruct (f _ _) as [e0|] eqn:Hf.
    { injection Hrun as <- <-. exists []. eexists.
      cbn [List.length loopSteps loopEvents app]. rewrite Z.add_0_r.
      split; [exact I|]. split; [exact Hi|]. split; [|reflexivity].
      right. exists cc, f. repeat split; assumption. }
    apply IH in Hrun; [|exact Hc]. rewrite self_appendLog in Hrun.
    fold d in Hrun. destruct Hrun as (ccs & evs & Hsteps & Hlt & Hthrow & Hw).
    exists (cc :: ccs), evs. cbn [List.length loopSteps loopEvents].
    replace (i + Z.of_nat (S (List.length ccs)) * cs)
      with (i + cs + Z.of_nat (List.length ccs) * cs) by lia.
    split.
    { split; [exact Hi|]. split; [exact Hcc|]. split; [|exact Hsteps].
      intros f' Hf'. injection Hf' as <-. exact Hf. }
    split; [exact Hlt|]. split; [exact Hthrow|].
    rewrite Hw, appendLog_app. reflexivity.
  - apply IH in Hrun; [|exact Hc]. rewrite self_appendLog in Hrun.
    fold d in Hrun. destruct Hrun as (ccs & evs & Hsteps & Hlt & Hthrow & Hw).
    exists (cc :: ccs), evs. cbn [List.length loopSteps loopEvents].
    replace (i + Z.of_nat (S (List.length ccs)) * cs)
      with (i + cs + Z.of_nat (List.length ccs) * cs) by lia.
    split.
    { split; [exact Hi|]. split; [exact Hcc|]. split; [|exact Hsteps].
      intros f' Hf'. discriminate Hf'. }
    split; [exact Hlt|]. split; [exact Hthrow|].
    rewrite Hw, appendLog_app. reflexivity.
Qed.


(** With a chunk size that is not positive, a codec that always returns
    and a callback that always returns, the loop uses up any fuel on a
    non-empty input, one codec call for each unit of it. *)
Lemma streamLoop_diverges (fuel : nat) :
  forall (i : Z) (chunks : list bytes) (w : World),
    cs <= 0 ->
    i < jsLength data ->
    codec (self w) = Some c ->
    (forall chunk d,
        exists cc, ZstdStream_compress c chunk lvl true d = inr cc) ->
    (forall f q n, cb = Some f -> f q n = None) ->
    exists evs : list Event,
      streamLoop rnd fuel data lvl useDict cs cb i chunks w
      = (OutOfFuel, appendLog w evs)
      /\ compressCalls evs = fuel.
Proof.
  induction fuel as [|fuel IH]; intros i chunks w Hcs Hi Hc Hcodec Hcb.
  { exists []. now rewrite appendLog_nil. }
  rewrite (@streamLoop_step rnd data lvl useDict cs cb fuel i chunks w c Hc Hi).
  destruct (Hcodec (jsSlice data i (i + cs)) (dictArgOf useDict (self w)))
    as [cc ->].
  destruct cb as [f|] eqn:Ecb.
  - rewrite (Hcb f _ _ eq_refl).
    match goal with
    | |- context [streamLoop _ _ _ _ _ _ _ ?i' ?ch ?w0] =>
        destruct (IH i' ch w0 Hcs ltac:(lia) Hc Hcodec Hcb)
          as (evs & Hevs & Hn)
    end.
    rewrite Hevs, appendLog_app. eexists. split; [reflexivity|].
    cbn [app compressCalls]. now rewrite Hn.
  - match goal with
    | |- context [streamLoop _ _ _ _ _ _ _ ?i' ?ch ?w0] =>
        destruct (IH i' ch w0 Hcs ltac:(lia) Hc Hcodec Hcb)
          as (evs & Hevs & Hn)
    end.
    rewrite Hevs, appendLog_app. eexists. split; [reflexivity|].
    cbn [app compressCalls]. now rewrite Hn.
Qed.

End LoopOutcomes.

Lemma compressCalls_app (e1 e2 : list Event) :
  compressCalls (e1 ++ e2) = (compressCalls e1 + compressCalls e2)%nat.
Proof.
  induction e1 as [|e e1 IH]; [reflexivity|].
  destruct e; cbn [app compressCalls]; rewrite IH; reflexivity.
Qed.

Lemma fractions_loopEvents (rnd : Q -> Q) (data : bytes) (lvl cs : Z)
    (f : Callback) (d : DictArg) (ccs : list bytes) :
  forall i : Z,
    map fst (progressReports (loopEvents rnd data lvl cs (Some f) d i ccs))
    = map (fun k : nat => progressAt rnd data cs (i + Z.of_nat k * cs))
        (seq 0 (List.length ccs)).
Proof.
  induction ccs as [|cc ccs IH]; intros i; [reflexivity|].
  cbn [loopEvents app progressReports map fst List.length seq].
  rewrite IH, <- seq_shift, map_map. f_equal.
  - f_equal. lia.
  - apply map_ext. intros k. f_equal. lia.
Qed.

Lemma reports_without_callback (rnd : Q -> Q) (data : bytes) (lvl cs : Z)
    (d : DictArg) (ccs : list bytes) :
  forall i : Z,
    progressReports (loopEvents rnd data lvl cs None d i ccs) = [].
Proof.
  induction ccs as [|cc ccs IH]; intros i; [reflexivity|].
  cbn [loopEvents app progressReports]. apply IH.
Qed.

Lemma loopRun_chunkCount (rnd : Q -> Q) (data : bytes) (lvl cs : Z)
    (cb : option Callback) (c : ZstdCodec) (d : DictArg) (ccs : list bytes) :
  0 < cs ->
  loopRun rnd data lvl cs cb c d 0 ccs ->
  List.length ccs = chunkCount data cs.
Proof.
  intros Hcs Hrun.
  destruct (loopRun_count rnd data lvl cs cb c d ccs 0 Hrun) as [Hend Hlast].
  pose proof (jsLength_nonneg data) as Hlen.
  unfold chunkCount.
  assert (H : (jsLength data + cs - 1) / cs = Z.of_nat (List.length ccs)).
  { symmetry. apply Z.div_unique with
      (r := jsLength data + cs - 1 - cs * Z.of_nat (List.length ccs)); [|lia].
    left. destruct ccs as [|cc ccs]; [cbn [List.length] in *; lia|].
    specialize (Hlast ltac:(discriminate)). lia. }
  rewrite H. lia.
Qed.

(** *** Streaming runs *)

(** X4. Streaming compression fails fast.  When a streaming call throws on
    a processor with a codec, some first chunks went through, the next
    iteration threw (the codec on its chunk, or the callback after it), and
    that chunk is the last the codec was handed; the error is
    [Error("Compression failed: " + message)] and the processor is as it
    was. *)
Theorem stream_fails_fast :
  forall (rnd : Q -> Q) (perf_now : nat -> Q) (fuel : nat) (data : bytes)
         (options : CompressionOptions) (cb : option Callback) (w : World)
         (c : ZstdCodec) (e : JsError),
    codec (self w) = Some c ->
    streaming options = true ->
    let r := compressWithProgress rnd perf_now fuel data options cb w in
    let lvl := levelOf options in
    let cs := chunkSizeOf options in
    let d := dictArgOf (usesDictionary options) (self w) in
    fst r = Thrown e ->
    exists (ccs : list bytes) (e0 : JsError) (last : list Event),
      e = newError ("Compression failed: " ++ errMessage e0)
      /\ loopSteps rnd data lvl cs cb c d 0 ccs
      /\ iterationThrows rnd data lvl cs cb c d
           (Z.of_nat (List.length ccs) * cs) e0 last
      /\ log (snd r) = log w ++ loopEvents rnd data lvl cs cb d 0 ccs ++ last
      /\ compressCalls (loopEvents rnd data lvl cs cb d 0 ccs ++ last)
         = S (List.length ccs)
      /\ self (snd r) = self w.
Proof.
  intros rnd perf_now fuel data options cb w c e Hc Hs r lvl cs d Hthrown.
  subst r.
  rewrite (compressWithProgress_eq rnd perf_now fuel data options cb w Hc)
    in *.
  unfold compressCore in *. unfold streaming in Hs. rewrite Hs in *.
  rewrite streamCompress_eq in *.
  destruct (streamLoop _ _ _ _ _ _ _ _ _ (tick w)) as [[chunks|e0|] w1]
    eqn:Hloop; cbn [fst snd] in *; try discriminate Hthrown.
  injection Hthrown as <-.
  assert (Hc' : codec (self (tick w)) = Some c) by exact Hc.
  destruct (streamLoop_thrown rnd data _ _ _ cb c fuel 0 [] (tick w) e0 w1
              Hc' Hloop) as (ccs & last & Hsteps & _ & Hthrow & Hw1).
  exists ccs, e0, last. subst w1.
  split; [reflexivity|]. split; [exact Hsteps|]. split; [exact Hthrow|].
  split; [reflexivity|]. split; [|reflexivity].
  rewrite compressCalls_app, compressCalls_loopEvents.
  destruct Hthrow as [[_ ->]|(cc & f & _ & _ & _ & ->)]; cbn; lia.
Qed.

Lemma stream_fails_fast_witness :
  let r := compressWithProgress exactRnd tickClock 4 [x01; x02; x03]
             (streamOptions 2) None (readyWorld failingCodec) in
  exists (ccs : list bytes) (e0 : JsError) (last : list Event),
    newError "Compression failed: Src size is incorrect"
    = newError ("Compression failed: " ++ errMessage e0)
    /\ loopSteps exactRnd [x01; x02; x03] 5 2 None failingCodec DictOmitted
         0 ccs
    /\ iterationThrows exactRnd [x01; x02; x03] 5 2 None failingCodec
         DictOmitted (Z.of_nat (List.length ccs) * 2) e0 last
    /\ log (snd r)
       = log (readyWorld failingCodec)
         ++ loopEvents exactRnd [x01; x02; x03] 5 2 None DictOmitted 0 ccs
         ++ last
    /\ compressCalls
         (loopEvents exactRnd [x01; x02; x03] 5 2 None DictOmitted 0 ccs
          ++ last)
       = S (List.length ccs)
    /\ self (snd r) = self (readyWorld failingCodec).
Proof.
  apply (stream_fails_fast exactRnd tickClock 4 [x01; x02; x03]
           (streamOptions 2) None (readyWorld failingCodec) failingCodec
           (newError "Compression failed: Src size is incorrect")).
  - reflexivity.
  - reflexivity.
  - reflexivity.
Defined.

(** X5. A streaming call that returns made [ceil(length / chunkSize)] codec
    calls, one for each chunk, and as many callback invocations when a
    callback was given (none otherwise); the [k]-th invocation, counting
    from 0, was told the fraction [min((k * chunkSize + chunkSize) / length,
    1)]. *)
Theorem stream_chunk_count :
  forall (rnd : Q -> Q) (perf_now : nat -> Q) (fuel : nat) (data : bytes)
         (options : CompressionOptions) (cb : option Callback)
         (w w' : World) (out : bytes),
    streaming options = true ->
    0 < chunkSizeOf options ->
    compressWithProgress rnd perf_now fuel data options cb w = (Returned out, w') ->
    let cs := chunkSizeOf options in
    let n := chunkCount data cs in
    exists evs : list Event,
      log w' = log w ++ evs
      /\ compressCalls evs = n
      /\ List.length (codecChunks evs) = n
      /\ map fst (progressReports evs)
         = match cb with
           | Some _ =>
               map (fun k : nat => progressAt rnd data cs (Z.of_nat k * cs))
                 (seq 0 n)
           | None => []
           end.
Proof.
  intros rnd perf_now fuel data options cb w w' out Hs Hcs Hrun cs n.
  destruct (compress_stream_returned _ _ _ _ _ _ _ Hs Hrun)
    as (c & ccs & Hc & Hout & Hloop & Hlog).
  pose proof (loopRun_chunkCount _ _ _ _ _ _ _ _ Hcs Hloop) as Hn.
  fold cs in Hn. fold n in Hn.
  eexists. split; [exact Hlog|].
  rewrite compressCalls_loopEvents, codecChunks_loopEvents, chunksFrom_length.
  split; [exact Hn|]. split; [exact Hn|].
  destruct cb as [f|].
  - rewrite fractions_loopEvents, Hn. apply map_ext. intros k. f_equal.
  - now rewrite reports_without_callback.
Qed.

Lemma stream_chunk_count_witness :
  let w' := snd (compressWithProgress exactRnd tickClock 4 [x01; x02; x03]
                   (streamOptions 2) (Some noThrow) (readyWorld storeCodec)) in
  exists evs : list Event,
    log w' = log (readyWorld storeCodec) ++ evs
    /\ compressCalls evs = chunkCount [x01; x02; x03] 2
    /\ List.length (codecChunks evs) = chunkCount [x01; x02; x03] 2
    /\ map fst (progressReports evs)
       = map (fun k : nat =>
                progressAt exactRnd [x01; x02; x03] 2 (Z.of_nat k * 2))
           (seq 0 (chunkCount [x01; x02; x03] 2)).
Proof.
  apply (stream_chunk_count exactRnd tickClock 4 [x01; x02; x03]
           (streamOptions 2) (Some noThrow) (readyWorld storeCodec)
           (snd (compressWithProgress exactRnd tickClock 4 [x01; x02; x03]
                   (streamOptions 2) (Some noThrow) (readyWorld storeCodec)))
           [x01; x02; x03]).
  - reflexivity.
  - reflexivity.
  - reflexivity.
Defined.

(** *** Non-streaming calls *)

(** X6. Without [useStream], the chunk size, the callback and the fuel play
    no part: two calls that differ in them only have the same outcome and
    leave the same world, the callback is never invoked, and the codec is
    called once at most. *)
Theorem nonstreaming_ignores_chunking :
  forall (rnd : Q -> Q) (perf_now : nat -> Q) (fuel fuel' : nat)
         (data : bytes) (options : CompressionOptions)
         (chunkSize' : option Z) (cb cb' : option Callback) (w : World),
    streaming options = false ->
    let options' := mkOptions (level options) (useStream options)
                      (useDictionary options) chunkSize' in
    let r := compressWithProgress rnd perf_now fuel data options cb w in
    r = compressWithProgress rnd perf_now fuel' data options' cb' w
    /\ exists evs : list Event,
         log (snd r) = log w ++ evs
         /\ progressReports evs = []
         /\ (compressCalls evs <= 1)%nat.
Proof.
  intros rnd perf_now fuel fuel' data options chunkSize' cb cb' w Hs
    options' r. subst r options'.
  unfold streaming in Hs.
  destruct (codec (self w)) as [c|] eqn:Hc.
  - rewrite !(compressWithProgress_eq rnd perf_now _ data _ _ w Hc).
    unfold compressCore. cbn [level useStream useDictionary]. rewrite Hs.
    split; [reflexivity|].
    assert (Hc' : codec (self (tick w)) = Some c) by exact Hc.
    rewrite (callSimpleCompress_eq _ _ _ (tick w) Hc').
    destruct (ZstdSimple_compress c data _ _);
      (eexists; split; [reflexivity|]; split; [reflexivity|]; cbn; lia).
  - rewrite !compressWithProgress_uninitialized by assumption.
    split; [reflexivity|]. exists []. cbn [snd].
    rewrite app_nil_r. repeat split. cbn. lia.
Qed.

Lemma nonstreaming_ignores_chunking_witness :
  let r := compressWithProgress exactRnd tickClock 0 [x01; x02; x03]
             (dictionaryOptions 0) None (readyWorld markerCodec) in
  r = compressWithProgress exactRnd tickClock 7 [x01; x02; x03]
        (mkOptions (level (dictionaryOptions 0))
           (useStream (dictionaryOptions 0))
           (useDictionary (dictionaryOptions 0)) (Some 2))
        (Some noThrow) (readyWorld markerCodec)
  /\ exists evs : list Event,
       log (snd r) = log (readyWorld markerCodec) ++ evs
       /\ progressReports evs = []
       /\ (compressCalls evs <= 1)%nat.
Proof.
  apply (nonstreaming_ignores_chunking exactRnd tickClock 0 7 [x01; x02; x03]
           (dictionaryOptions 0) (Some 2) None (Some noThrow)
           (readyWorld markerCodec)).
  reflexivity.
Defined.

(** *** What a call touches *)

(** X7. A call of [compressWithProgress] that returns reads the clock
    twice, writes [compressionTime] as the rounded difference of the two
    readings, and leaves [decompressionTime], the stored dictionary and the
    codec as they were. *)
Theorem compress_frame :
  forall (rnd : Q -> Q) (perf_now : nat -> Q) (fuel : nat) (data : bytes)
         (options : CompressionOptions) (cb : option Callback)
         (w w' : World) (out : bytes),
    compressWithProgress rnd perf_now fuel data options cb w = (Returned out, w') ->
    clock w' = S (S (clock w))
    /\ compressionTime (performanceMetrics (self w'))
       = jsSub rnd (perf_now (S (clock w))) (perf_now (clock w))
    /\ decompressionTime (performanceMetrics (self w'))
       = decompressionTime (performanceMetrics (self w))
    /\ dictionary (self w') = dictionary (self w)
    /\ codec (self w') = codec (self w).
Proof.
  intros rnd perf_now fuel data options cb w w' out Hrun.
  destruct (codec (self w)) as [c|] eqn:Hc.
  2:{ rewrite compressWithProgress_uninitialized in Hrun by assumption.
      discriminate Hrun. }
  rewrite (compressWithProgress_eq rnd perf_now fuel data options cb w Hc)
    in Hrun.
  assert (Hc' : codec (self (tick w)) = Some c) by exact Hc.
  destruct (compressCore_appends rnd fuel data options cb (tick w) Hc')
    as [evs Hevs].
  destruct (compressCore _ _ _ _ _ _) as [[o|e|] w1]; try discriminate Hrun.
  cbn [snd] in Hevs. subst w1. injection Hrun as <- <-.
  cbn. rewrite Hc. repeat split.
Qed.

Lemma compress_frame_witness :
  let w := snd (createDictionary [x07] (readyWorld markerCodec)) in
  let w' := snd (compressWithProgress exactRnd tickClock 4 [x01; x02; x03]
                   (streamOptions 2) None w) in
  clock w' = S (S (clock w))
  /\ compressionTime (performanceMetrics (self w'))
     = jsSub exactRnd (tickClock (S (clock w))) (tickClock (clock w))
  /\ decompressionTime (performanceMetrics (self w'))
     = decompressionTime (performanceMetrics (self w))
  /\ dictionary (self w') = dictionary (self w)
  /\ codec (self w') = codec (self w).
Proof.
  apply (compress_frame exactRnd tickClock 4 [x01; x02; x03]
           (streamOptions 2) None
           (snd (createDictionary [x07] (readyWorld markerCodec)))
           (snd (compressWithProgress exactRnd tickClock 4 [x01; x02; x03]
                   (streamOptions 2) None
                   (snd (createDictionary [x07] (readyWorld markerCodec)))))
           [x5a; x01; x02; x5a; x03]).
  reflexivity.
Defined.

(** X8. When [decompress] throws, the processor is exactly as it was:
    [decompressionTime] is written only when the codec has returned.  The
    error is [Error("ZSTD not initialized")] on a processor without codec,
    and [Error("Decompression failed: " + message)] otherwise, after one
    reading of the clock and one call of the codec. *)
Theorem decompress_failure_frame :
  forall (rnd : Q -> Q) (perf_now : nat -> Q) (compressedData : bytes)
         (useDict : option bool) (w w' : World) (e : JsError),
    decompress rnd perf_now compressedData useDict w = (Thrown e, w') ->
    self w' = self w
    /\ ((codec (self w) = None
         /\ e = newError "ZSTD not initialized" /\ w' = w)
        \/ (exists (c : ZstdCodec) (e0 : JsError),
              codec (self w) = Some c
              /\ ZstdStream_decompress c compressedData
                   (dictArgOf (withDefault false useDict) (self w)) = inl e0
              /\ e = newError ("Decompression failed: " ++ errMessage e0)
              /\ clock w' = S (clock w)
              /\ log w'
                 = log w
                   ++ [StreamDecompressCall compressedData
                         (dictArgOf (withDefault false useDict) (self w))])).
Proof.
  intros rnd perf_now compressedData useDict w w' e Hrun.
  destruct (codec (self w)) as [c|] eqn:Hc.
  - rewrite (decompress_eq rnd perf_now compressedData useDict w Hc) in Hrun.
    destruct (ZstdStream_decompress c compressedData _) as [e0|o] eqn:Hd;
      [|discriminate Hrun].
    injection Hrun as <- <-. split; [reflexivity|].
    right. exists c, e0. repeat split. exact Hd.
  - rewrite decompress_uninitialized in Hrun by assumption.
    injection Hrun as <- <-. split; [reflexivity|]. left. repeat split.
Qed.

Lemma decompress_failure_frame_witness :
  let w := readyWorld markerCodec in
  let w' := snd (decompress exactRnd tickClock [x01] None w) in
  let e := newError "Decompression failed: Unknown frame descriptor" in
  self w' = self w
  /\ ((codec (self w) = None
       /\ e = newError "ZSTD not initialized" /\ w' = w)
      \/ (exists (c : ZstdCodec) (e0 : JsError),
            codec (self w) = Some c
            /\ ZstdStream_decompress c [x01]
                 (dictArgOf (withDefault false None) (self w)) = inl e0
            /\ e = newError ("Decompression failed: " ++ errMessage e0)
            /\ clock w' = S (clock w)
            /\ log w'
               = log w
                 ++ [StreamDecompressCall [x01]
                       (dictArgOf (withDefault false None) (self w))])).
Proof.
  apply (decompress_failure_frame exactRnd tickClock [x01] None
           (readyWorld markerCodec)
           (snd (decompress exactRnd tickClock [x01] None
                   (readyWorld markerCodec)))
           (newError "Decompression failed: Unknown frame descriptor")).
  reflexivity.
Defined.

(** *** Edge cases of streaming *)

(** X9. In streaming mode an empty input is compressed to an empty output
    without any codec call or callback invocation, whatever the chunk size
    (zero and negative included): the log is unchanged and the metrics
    record sizes 0 and 0. *)
Theorem stream_empty_input :
  forall (rnd : Q -> Q) (perf_now : nat -> Q) (fuel : nat)
         (options : CompressionOptions) (cb : option Callback) (w : World)
         (c : ZstdCodec),
    codec (self w) = Some c ->
    streaming options = true ->
    let r := compressWithProgress rnd perf_now (S fuel) [] options cb w in
    fst r = Returned []
    /\ log (snd r) = log w
    /\ originalSize (performanceMetrics (self (snd r))) = 0
    /\ compressedSize (performanceMetrics (self (snd r))) = 0.
Proof.
  intros rnd perf_now fuel options cb w c Hc Hs r. subst r.
  rewrite (compressWithProgress_eq rnd perf_now (S fuel) [] options cb w Hc).
  unfold compressCore. unfold streaming in Hs. rewrite Hs.
  rewrite streamCompress_eq, streamLoop_exit by (cbn; lia).
  repeat split.
Qed.

Lemma stream_empty_input_witness :
  let r := compressWithProgress exactRnd tickClock 1 [] (streamOptions (-3))
             (Some noThrow) (readyWorld failingCodec) in
  fst r = Returned []
  /\ log (snd r) = log (readyWorld failingCodec)
  /\ originalSize (performanceMetrics (self (snd r))) = 0
  /\ compressedSize (performanceMetrics (self (snd r))) = 0.
Proof.
  apply (stream_empty_input exactRnd tickClock 0 (streamOptions (-3))
           (Some noThrow) (readyWorld failingCodec) failingCodec).
  - reflexivity.
  - reflexivity.
Defined.

(** X10. [streamCompress] called directly on a processor that has no codec:
    an empty input is returned as an empty output and nothing else happens;
    on a non-empty input the first iteration throws a [TypeError] (reading
    a member of [null]), which no [try] wraps, before any event. *)
Theorem streamCompress_without_codec :
  forall (rnd : Q -> Q) (fuel : nat) (data : bytes) (lvl : Z)
         (useDict : bool) (cs : Z) (cb : option Callback) (w : World),
    codec (self w) = None ->
    let r := streamCompress rnd (S fuel) data lvl useDict cs cb w in
    snd r = w
    /\ (data = [] -> fst r = Returned [])
    /\ (data <> [] ->
        exists e : JsError, fst r = Thrown e /\ errName e = "TypeError").
Proof.
  intros rnd fuel data lvl useDict cs cb w Hc r. subst r.
  rewrite streamCompress_eq.
  destruct data as [|b data].
  - rewrite streamLoop_exit by (cbn; lia). repeat split. congruence.
  - cbn [streamLoop].
    destruct (Z.ltb_spec 0 (jsLength (b :: data)));
      [|unfold jsLength in *; cbn [List.length] in *; lia].
    unfold_calls. cbn [self clock log].
    destruct useDict; cbn [self clock log]; rewrite Hc;
      (repeat split; [discriminate|]; intros _; eexists; split; reflexivity).
Qed.

Lemma streamCompress_without_codec_witness :
  let r := streamCompress exactRnd 3 [x01] 5 false 1 None freshWorld in
  snd r = freshWorld
  /\ ([x01] = [] -> fst r = Returned [])
  /\ ([x01] <> [] ->
      exists e : JsError, fst r = Thrown e /\ errName e = "TypeError").
Proof.
  apply (streamCompress_without_codec exactRnd 2 [x01] 5 false 1 None
           freshWorld).
  reflexivity.
Defined.

(** X11. In streaming mode with a chunk size of zero or less, on a
    non-empty input, with a codec and a callback that never throw, the call
    does not end: for every amount of fuel the outcome is [OutOfFuel], the
    codec has been called once for each unit of fuel, and the processor is
    as it was. *)
Theorem stream_nonpositive_chunk_diverges :
  forall (rnd : Q -> Q) (perf_now : nat -> Q) (fuel : nat) (data : bytes)
         (options : CompressionOptions) (cb : option Callback) (w : World)
         (c : ZstdCodec),
    codec (self w) = Some c ->
    streaming options = true ->
    chunkSizeOf options <= 0 ->
    data <> [] ->
    (forall chunk d,
        exists cc,
          ZstdStream_compress c chunk (levelOf options) true d = inr cc) ->
    (forall f q n, cb = Some f -> f q n = None) ->
    let r := compressWithProgress rnd perf_now fuel data options cb w in
    fst r = OutOfFuel
    /\ self (snd r) = self w
    /\ exists evs : list Event,
         log (snd r) = log w ++ evs /\ compressCalls evs = fuel.
Proof.
  intros rnd perf_now fuel data options cb w c Hc Hs Hcs Hd Hcodec Hcb r.
  subst r.
  assert (Hlen : 0 < jsLength data).
  { destruct data; [congruence|unfold jsLength; cbn; lia]. }
  rewrite (compressWithProgress_eq rnd perf_now fuel data options cb w Hc).
  unfold compressCore. unfold streaming in Hs. rewrite Hs.
  rewrite streamCompress_eq.
  assert (Hc' : codec (self (tick w)) = Some c) by exact Hc.
  destruct (streamLoop_diverges rnd data (levelOf options)
              (withDefault false (useDictionary options))
              (chunkSizeOf options) cb c fuel 0 [] (tick w) Hcs Hlen Hc'
              Hcodec Hcb) as (evs & Hrun & Hn).
  unfold levelOf, chunkSizeOf in Hrun. rewrite Hrun.
  cbn [fst snd]. split; [reflexivity|]. split; [reflexivity|].
  exists evs. split; [reflexivity|exact Hn].
Qed.

Lemma stream_nonpositive_chunk_diverges_witness :
  let r := compressWithProgress exactRnd tickClock 6 [x01; x02]
             (streamOptions 0) (Some noThrow) (readyWorld storeCodec) in
  fst r = OutOfFuel
  /\ self (snd r) = self (readyWorld storeCodec)
  /\ exists evs : list Event,
       log (snd r) = log (readyWorld storeCodec) ++ evs
       /\ compressCalls evs = 6%nat.
Proof.
  apply (stream_nonpositive_chunk_diverges exactRnd tickClock 6 [x01; x02]
           (streamOptions 0) (Some noThrow) (readyWorld storeCodec)
           storeCodec).
  - reflexivity.
  - reflexivity.
  - cbn. lia.
  - discriminate.
  - intros chunk d. exists chunk. reflexivity.
  - intros f q n H. injection H as <-. reflexivity.
Defined.

(** *** The codec calls of one compression *)



(** X14. A call returns when nothing throws: on a processor with a codec
    whose compressors never throw, with a callback that never throws, a
    positive chunk size and fuel beyond the length of the input,
    [compressWithProgress] returns, in either mode. *)
Theorem compress_returns :
  forall (rnd : Q -> Q) (perf_now : nat -> Q) (fuel : nat) (data : bytes)
         (options : CompressionOptions) (cb : option Callback) (w : World)
         (c : ZstdCodec),
    codec (self w) = Some c ->
    0 < chunkSizeOf options ->
    (List.length data < fuel)%nat ->
    (forall chunk lvl d,
        exists cc, ZstdStream_compress c chunk lvl true d = inr cc) ->
    (forall chunk lvl d,
        exists cc, ZstdSimple_compress c chunk lvl d = inr cc) ->
    (forall f q n, cb = Some f -> f q n = None) ->
    exists out : bytes,
      fst (compressWithProgress rnd perf_now fuel data options cb w)
      = Returned out.
Proof.
  intros rnd perf_now fuel data options cb w c Hc Hcs Hfuel Hstream Hsimple
    Hcb.
  destruct (streaming options) eqn:Hs.
  - apply compress_stream_total with (c := c); try assumption.
    intros chunk d. apply Hstream.
  - rewrite (compressWithProgress_eq rnd perf_now fuel data options cb w Hc).
    unfold compressCore. unfold streaming in Hs. rewrite Hs.
    assert (Hc' : codec (self (tick w)) = Some c) by exact Hc.
    rewrite (callSimpleCompress_eq _ _ _ (tick w) Hc').
    destruct (Hsimple data (withDefault 5 (level options))
                (dictArgOf (withDefault false (useDictionary options))
                   (self (tick w)))) as [cc ->].
    eexists. reflexivity.
Qed.

Lemma compress_returns_witness :
  exists out : bytes,
    fst (compressWithProgress exactRnd tickClock 4 [x01; x02; x03]
           (streamOptions 2) (Some noThrow) (readyWorld markerCodec))
    = Returned out.
Proof.
  apply (compress_returns exactRnd tickClock 4 [x01; x02; x03]
           (streamOptions 2) (Some noThrow) (readyWorld markerCodec)
           markerCodec).
  - reflexivity.
  - reflexivity.
  - cbn. lia.
  - intros chunk lvl d. eexists. reflexivity.
  - intros chunk lvl d. eexists. reflexivity.
  - intros f q n H. injection H as <-. reflexivity.
Defined.

(** *** An invariant of the metrics *)

Lemma compress_self (rnd : Q -> Q) (perf_now : nat -> Q) (fuel : nat)
    (data : bytes) (options : CompressionOptions) (cb : option Callback)
    (w : World) :
  let r := compressWithProgress rnd perf_now fuel data options cb w in
  self (snd r)
  = match fst r with
    | Returned out =>
        recordCompression
          (jsSub rnd (perf_now (S (clock w))) (perf_now (clock w)))
          (jsLength data) (jsLength out) (self w)
    | _ => self w
    end.
Proof.
  intros r. subst r.
  destruct (codec (self w)) as [c|] eqn:Hc.
  2:{ now rewrite compressWithProgress_uninitialized by assumption. }
  rewrite (compressWithProgress_eq rnd perf_now fuel data options cb w Hc).
  assert (Hc' : codec (self (tick w)) = Some c) by exact Hc.
  destruct (compressCore_appends rnd fuel data options cb (tick w) Hc')
    as [evs Hevs].
  destruct (compressCore _ _ _ _ _ _) as [[o|e|] w1]; cbn [fst snd] in *;
    now subst w1.
Qed.

Lemma decompress_self (rnd : Q -> Q) (perf_now : nat -> Q)
    (compressedData : bytes) (useDict : option bool) (w : World) :
  let r := decompress rnd perf_now compressedData useDict w in
  self (snd r)
  = match fst r with
    | Returned _ =>
        setMetrics
          (mkMetrics (compressionTime (performanceMetrics (self w)))
             (jsSub rnd (perf_now (S (clock w))) (perf_now (clock w)))
             (originalSize (performanceMetrics (self w)))
             (compressedSize (performanceMetrics (self w))))
          (self w)
    | _ => self w
    end.
Proof.
  intros r. subst r.
  destruct (codec (self w)) as [c|] eqn:Hc.
  2:{ now rewrite decompress_uninitialized by assumption. }
  rewrite (decompress_eq rnd perf_now compressedData useDict w Hc).
  destruct (ZstdStream_decompress c compressedData _); reflexivity.
Qed.

Lemma jsSub_nonneg (rnd : Q -> Q) (t0 t1 : Q) :
  (forall x y : Q, (x <= y)%Q -> (rnd x <= rnd y)%Q) ->
  (rnd 0 == 0)%Q ->
  (t0 <= t1)%Q ->
  (0 <= jsSub rnd t1 t0)%Q.
Proof.
  intros Hmono Hzero Ht. unfold jsSub. rewrite <- Hzero.
  apply Hmono. now apply (proj1 (Qle_minus_iff t0 t1)) in Ht.
Qed.

Lemma jsOr1_positive (x : Z) : 0 <= x -> 0 < jsOr1 x.
Proof. intros H. unfold jsOr1. destruct (Z.eqb_spec x 0); lia. Qed.

Lemma jsDiv_nonneg (rnd : Q -> Q) (a b : Z) :
  (forall x y : Q, (x <= y)%Q -> (rnd x <= rnd y)%Q) ->
  (rnd 0 == 0)%Q ->
  0 <= a -> 0 < b ->
  (0 <= jsDiv rnd a b)%Q.
Proof.
  intros Hmono Hzero Ha Hb. unfold jsDiv. rewrite <- Hzero.
  apply Hmono. apply Qle_shift_div_l.
  - replace 0%Q with (inject_Z 0) by reflexivity. rewrite <- Zlt_Qlt. lia.
  - rewrite Qmult_0_l. replace 0%Q with (inject_Z 0) by reflexivity.
    rewrite <- Zle_Qle. lia.
Qed.

(** X15. No metric is ever negative.  With a clock that does not run
    backwards and a rounding that is monotone and exact at 0, after any
    calls of [init], [createDictionary], [compressWithProgress] and
    [decompress] on a new processor, whatever their arguments and outcomes,
    the two times and the two sizes are at least 0, [getMetrics] divides by
    a positive number, and the ratio it gives is at least 0. *)
Theorem metrics_never_negative :
  forall (rnd : Q -> Q) (perf_now : nat -> Q)
         (ZstdInit : JsError + ZstdCodec) (w : World),
    (forall x y : Q, (x <= y)%Q -> (rnd x <= rnd y)%Q) ->
    (rnd 0 == 0)%Q ->
    (forall k : nat, (perf_now k <= perf_now (S k))%Q) ->
    reachable rnd perf_now ZstdInit w ->
    metricsNonneg (performanceMetrics (self w))
    /\ 0 < jsOr1 (compressedSize (performanceMetrics (self w)))
    /\ (0 <= compressionRatio (getMetrics rnd (self w)))%Q.
Proof.
  intros rnd perf_now ZstdInit w Hmono Hzero Hclock Hreach.
  assert (Hinv : metricsNonneg (performanceMetrics (self w))).
  { induction Hreach as [k l|w Hw IH|w sample Hw IH
                         |w fuel data options cb Hw IH
                         |w compressedData useDict Hw IH].
    - unfold metricsNonneg. cbn. repeat split; (apply Qle_refl || lia).
    - now rewrite init_metrics.
    - now rewrite createDictionary_eq.
    - rewrite compress_self.
      destruct (fst (compressWithProgress _ _ _ _ _ _ _)); try exact IH.
      destruct IH as (_ & Hd & _ & _). unfold metricsNonneg. cbn.
      split; [now apply jsSub_nonneg|]. split; [exact Hd|].
      split; apply jsLength_nonneg.
    - rewrite decompress_self.
      destruct (fst (decompress _ _ _ _ _)); try exact IH.
      destruct IH as (Hc & _ & Ho & Hs). unfold metricsNonneg. cbn.
      split; [exact Hc|]. split; [now apply jsSub_nonneg|]. now split. }
  split; [exact Hinv|].
  destruct Hinv as (_ & _ & Ho & Hs).
  split; [now apply jsOr1_positive|].
  unfold getMetrics. cbn [compressionRatio].
  apply jsDiv_nonneg; try assumption. now apply jsOr1_positive.
Qed.

Lemma tickClock_monotone (k : nat) : (tickClock k <= tickClock (S k))%Q.
Proof. unfold tickClock. rewrite <- Zle_Qle. lia. Qed.

Lemma metrics_never_negative_witness :
  let w := snd (compressWithProgress exactRnd tickClock 4 [x01; x02; x03]
                  (streamOptions 2) None (readyWorld markerCodec)) in
  metricsNonneg (performanceMetrics (self w))
  /\ 0 < jsOr1 (compressedSize (performanceMetrics (self w)))
  /\ (0 <= compressionRatio (getMetrics exactRnd (self w)))%Q.
Proof.
  apply (metrics_never_negative exactRnd tickClock (inr markerCodec)
           (snd (compressWithProgress exactRnd tickClock 4 [x01; x02; x03]
                   (streamOptions 2) None (readyWorld markerCodec)))).
  - intros x y H. exact H.
  - reflexivity.
  - exact tickClock_monotone.
  - apply reach_compress. apply reach_init. apply reach_new.
Defined.

(** ** The example runner *)

Lemma skipn_cons_iff {A : Type} (l : list A) :
  forall (n : nat) (x : A) (t : list A),
    skipn n l = x :: t <-> nth_error l n = Some x /\ skipn (S n) l = t.
Proof.
  induction l as [|a l IH]; intros n x t.
  - destruct n; cbn; split; intros H; try discriminate H;
      destruct H as [H _]; discriminate H.
  - destruct n as [|n].
    + cbn. split.
      * intros H. injection H as -> ->. now split.
      * intros [H1 H2]. injection H1 as ->. now subst t.
    + cbn [skipn nth_error]. apply IH.
Qed.

Lemma typedArrayGet_of_nat (a : bytes) (n : nat) :
  typedArrayGet a (Z.of_nat n) = nth_error a n.
Proof.
  unfold typedArrayGet.
  destruct (Z.ltb_spec (Z.of_nat n) 0); [lia|]. now rewrite Nat2Z.id.
Qed.

Lemma strictEqual_true (b : byte) (v : option byte) :
  strictEqual b v = true <-> v = Some b.
Proof.
  destruct v as [b'|]; cbn; split; intros H; try discriminate H.
  - apply Byte.byte_dec_bl in H. now subst.
  - injection H as ->. now apply Byte.byte_dec_lb.
Qed.

Lemma everyFrom_prefix (sample : bytes) (a : bytes) :
  forall n : nat,
    everyFrom (fun b i => strictEqual b (typedArrayGet sample i)) a
      (Z.of_nat n) = true
    <-> exists rest : bytes, skipn n sample = a ++ rest.
Proof.
  induction a as [|x a IH]; intros n.
  - cbn. split; [intros _; eexists; reflexivity|reflexivity].
  - cbn [everyFrom app].
    replace (Z.of_nat n + 1) with (Z.of_nat (S n)) by lia.
    rewrite typedArrayGet_of_nat.
    destruct (strictEqual x (nth_error sample n)) eqn:Hx.
    + apply strictEqual_true in Hx. rewrite IH. split.
      * intros [rest Hrest]. exists rest. apply skipn_cons_iff. now split.
      * intros [rest Hrest]. apply skipn_cons_iff in Hrest.
        destruct Hrest as [_ Hrest]. now exists rest.
    + split; [discriminate|].
      intros [rest Hrest]. apply skipn_cons_iff in Hrest.
      destruct Hrest as [Hn _]. apply strictEqual_true in Hn. congruence.
Qed.

(** X16. The verification of the example,
    [decompressedData.every((byte, i) => byte === sampleData[i])], holds
    exactly when the decompressed bytes are a beginning of the sample: it
    accepts an output that is too short (the empty one included) and
    rejects one that is too long or differs at some index. *)
Theorem verification_accepts_prefixes :
  forall decompressedData sampleData : bytes,
    verifies decompressedData sampleData = true
    <-> prefixOf decompressedData sampleData.
Proof.
  intros decompressedData sampleData. unfold verifies, jsEvery, prefixOf.
  exact (everyFrom_prefix sampleData decompressedData 0).
Qed.

Lemma sampleOf_length (random : nat -> Q) (n : nat) :
  List.length (sampleOf random n) = n.
Proof. unfold sampleOf. now rewrite length_map, length_seq. Qed.

Lemma sampleOf_S (random : nat -> Q) (n : nat) :
  sampleOf random (S n)
  = sampleOf random n ++ [byteOfZ (sampleByte random (Z.of_nat n))].
Proof. unfold sampleOf. now rewrite seq_S, map_app. Qed.

(** The array after the iterations for the indices below [i]. *)
Lemma fillLoop_from (random : nat -> Q) (n : nat) (w : World) (fuel : nat) :
  forall i : nat,
    (i <= n)%nat ->
    (n - i < fuel)%nat ->
    fillLoop random (Z.of_nat n) fuel (Z.of_nat i)
      (sampleOf random i ++ repeat x00 (n - i)) w
    = (Returned (sampleOf random n), w).
Proof.
  induction fuel as [|fuel IH]; intros i Hi Hfuel; [lia|].
  cbn [fillLoop].
  destruct (Z.ltb_spec (Z.of_nat i) (Z.of_nat n)) as [Hlt|Hge].
  - replace (Z.of_nat i + 1) with (Z.of_nat (S i)) by lia.
    assert (Hstore :
              typedArrayStore (sampleOf random i ++ repeat x00 (n - i))
                (Z.of_nat i) (sampleByte random (Z.of_nat i))
              = sampleOf random (S i) ++ repeat x00 (n - S i)).
    { unfold typedArrayStore.
      assert (Hlen : jsLength (sampleOf random i ++ repeat x00 (n - i))
                     = Z.of_nat n).
      { unfold jsLength.
        rewrite length_app, sampleOf_length, repeat_length. lia. }
      rewrite Hlen.
      destruct (Z.leb_spec 0 (Z.of_nat i)); [|lia].
      destruct (Z.ltb_spec (Z.of_nat i) (Z.of_nat n)); [|lia].
      cbn [andb]. rewrite Nat2Z.id.
      rewrite firstn_app, sampleOf_length, Nat.sub_diag, firstn_O, app_nil_r.
      rewrite firstn_all2 by (rewrite sampleOf_length; lia).
      rewrite skipn_app, sampleOf_length.
      rewrite (skipn_all2 (sampleOf random i))
        by (rewrite sampleOf_length; lia).
      replace (S i - i)%nat with 1%nat by lia.
      replace (n - i)%nat with (S (n - S i)) by lia.
      cbn [repeat skipn app]. rewrite sampleOf_S, <- app_assoc.
      reflexivity. }
    rewrite Hstore. apply IH; lia.
  - replace i with n by lia. rewrite Nat.sub_diag. cbn [repeat].
    now rewrite app_nil_r.
Qed.

Lemma fillLoop_eq (random : nat -> Q) (dataSize : Z) (fuel : nat)
    (w : World) :
  0 <= dataSize ->
  (Z.to_nat dataSize < fuel)%nat ->
  fillLoop random dataSize fuel 0 (newUint8Array dataSize) w
  = (Returned (sampleOf random (Z.to_nat dataSize)), w).
Proof.
  intros H0 Hfuel.
  pose proof (fillLoop_from random (Z.to_nat dataSize) w fuel 0) as H.
  rewrite Z2Nat.id, Nat.sub_0_r in H by assumption.
  apply H; lia.
Qed.

(** X17. The loop of the example that fills the sample ends (fuel beyond
    [dataSize] is enough) with an array of [dataSize] bytes whose byte at
    index [i] is [i % 256] when the [i]-th draw of [Math.random()] is below
    0.5, and 0 otherwise. *)
Theorem sample_data_shape :
  forall (random : nat -> Q) (dataSize : Z) (fuel : nat) (w : World),
    0 <= dataSize ->
    (Z.to_nat dataSize < fuel)%nat ->
    exists sampleData : bytes,
      fillLoop random dataSize fuel 0 (newUint8Array dataSize) w
      = (Returned sampleData, w)
      /\ jsLength sampleData = dataSize
      /\ forall i : Z,
           0 <= i < dataSize ->
           typedArrayGet sampleData i
           = Some (if jsLt (random (Z.to_nat i)) (1 # 2)
                   then byteOfZ (i mod 256) else x00).
Proof.
  intros random dataSize fuel w H0 Hfuel.
  exists (sampleOf random (Z.to_nat dataSize)).
  split; [now apply fillLoop_eq|]. split.
  - unfold jsLength. rewrite sampleOf_length. lia.
  - intros i Hi. rewrite <- (Z2Nat.id i) at 1 by lia.
    rewrite typedArrayGet_of_nat. unfold sampleOf.
    rewrite nth_error_map, nth_error_seq.
    destruct (Nat.ltb_spec (Z.to_nat i) (Z.to_nat dataSize)); [|lia].
    cbn [option_map Nat.add]. f_equal. unfold sampleByte.
    rewrite ?Z2Nat.id, ?Nat2Z.id by lia.
    destruct (jsLt (random (Z.to_nat i)) (1 # 2)); [|reflexivity].
    now rewrite Z.rem_mod_nonneg by lia.
Qed.

Lemma sample_data_shape_witness :
  exists sampleData : bytes,
    fillLoop alternating 5 6 0 (newUint8Array 5) freshWorld
    = (Returned sampleData, freshWorld)
    /\ jsLength sampleData = 5
    /\ forall i : Z,
         0 <= i < 5 ->
         typedArrayGet sampleData i
         = Some (if jsLt (alternating (Z.to_nat i)) (1 # 2)
                 then byteOfZ (i mod 256) else x00).
Proof.
  apply (sample_data_shape alternating 5 6 freshWorld).
  - lia.
  - cbn. lia.
Defined.

(** The example, step by step. *)
Lemma runExample_eq (rnd : Q -> Q) (perf_now : nat -> Q)
    (ZstdInit : JsError + ZstdCodec) (random : nat -> Q) (dataSize : Z)
    (fuel : nat) (w : World) :
  0 <= dataSize ->
  (Z.to_nat dataSize < fuel)%nat ->
  runExample rnd perf_now ZstdInit random dataSize fuel w
  = match ZstdInit with
    | inl e =>
        (Returned
           (ErrorReported ("Failed to initialize ZSTD: " ++ errMessage e)),
         mkWorld newZstdProcessor (clock w)
           (log w
            ++ [ConsoleLog
                  ("Error in ZSTD processing: "
                   ++ "Failed to initialize ZSTD: " ++ errMessage e) None]))
    | inr c =>
        let sample := sampleOf random (Z.to_nat dataSize) in
        match compressWithProgress rnd perf_now fuel sample exampleOptions
                (Some exampleCallback) (afterSetup c sample w) with
        | (Returned compressed, w2) =>
            match decompress rnd perf_now compressed (Some true)
                    (appendLog w2
                       [ConsoleLog "Compression completed. Metrics:" None])
            with
            | (Returned decompressed, w3) =>
                (Returned (Verification (verifies decompressed sample)),
                 appendLog w3
                   [ConsoleLog
                      ("Decompression verification: "
                       ++ (if verifies decompressed sample
                           then "Success" else "Failed")) None])
            | (Thrown e, w3) =>
                (Returned (ErrorReported (errMessage e)),
                 appendLog w3
                   [ConsoleLog ("Error in ZSTD processing: " ++ errMessage e)
                      None])
            | (OutOfFuel, w3) => (OutOfFuel, w3)
            end
        | (Thrown e, w2) =>
            (Returned (ErrorReported (errMessage e)),
             appendLog w2
               [ConsoleLog ("Error in ZSTD processing: " ++ errMessage e)
                  None])
        | (OutOfFuel, w2) => (OutOfFuel, w2)
        end
    end.
Proof.
  intros H0 Hfuel. unfold runExample.
  cbv beta iota zeta delta [bind tryCatch putSelf emit ret].
  cbn [self clock log]. rewrite init_eq.
  destruct ZstdInit as [e|c]; [reflexivity|].
  rewrite fillLoop_eq by assumption.
  rewrite createDictionary_eq. cbn [self clock log].
  fold (afterSetup c (sampleOf random (Z.to_nat dataSize)) w).
  destruct (compressWithProgress _ _ _ _ _ _ _) as [[compressed|e|] w2];
    try reflexivity.
  cbn [self clock log].
  change (mkWorld (self w2) (clock w2)
            (log w2 ++ [ConsoleLog "Compression completed. Metrics:" None]))
    with (appendLog w2 [ConsoleLog "Compression completed. Metrics:" None]).
  destruct (decompress _ _ _ _ _) as [[decompressed|e|] w3]; reflexivity.
Qed.

Lemma decompress_never_out_of_fuel (rnd : Q -> Q) (perf_now : nat -> Q)
    (compressedData : bytes) (useDict : option bool) (w : World) :
  fst (decompress rnd perf_now compressedData useDict w) <> OutOfFuel.
Proof.
  destruct (codec (self w)) as [c|] eqn:Hc.
  - rewrite (decompress_eq rnd perf_now compressedData useDict w Hc).
    destruct (ZstdStream_decompress c compressedData _); discriminate.
  - now rewrite decompress_uninitialized by assumption.
Qed.

(** X18. The example never lets an error out and, given fuel beyond
    [dataSize], always comes to its last line: whatever the codec, the
    clock and the generator do, it returns a report.  When the library
    fails to load, the report is the error
    ["Failed to initialize ZSTD: " + message] and nothing was compressed. *)
Theorem example_always_reports :
  forall (rnd : Q -> Q) (perf_now : nat -> Q)
         (ZstdInit : JsError + ZstdCodec) (random : nat -> Q) (dataSize : Z)
         (fuel : nat) (w : World),
    0 <= dataSize ->
    (Z.to_nat dataSize < fuel)%nat ->
    let r := runExample rnd perf_now ZstdInit random dataSize fuel w in
    (exists report : ExampleReport, fst r = Returned report)
    /\ forall e : JsError,
         ZstdInit = inl e ->
         fst r
         = Returned
             (ErrorReported ("Failed to initialize ZSTD: " ++ errMessage e))
         /\ compressCalls (log (snd r)) = compressCalls (log w).
Proof.
  intros rnd perf_now ZstdInit random dataSize fuel w H0 Hfuel r. subst r.
  rewrite runExample_eq by assumption.
  split.
  - destruct ZstdInit as [e|c]; [eexists; reflexivity|]. cbv zeta.
    pose proof (@compress_enough_fuel rnd perf_now fuel
                  (sampleOf random (Z.to_nat dataSize)) exampleOptions
                  (Some exampleCallback)
                  (afterSetup c (sampleOf random (Z.to_nat dataSize)) w))
      as Hnot.
    destruct (compressWithProgress _ _ _ _ _ _ _) as [[compressed|e|] w2];
      [|eexists; reflexivity|].
    + match goal with
      | |- context [decompress ?r ?p ?b ?u ?w0] =>
          pose proof (decompress_never_out_of_fuel r p b u w0) as Hd;
          destruct (decompress r p b u w0) as [[decompressed|e|] w3]
      end; [eexists; reflexivity|eexists; reflexivity|].
      now destruct Hd.
    + exfalso. apply Hnot; [reflexivity| |reflexivity].
      now rewrite sampleOf_length.
  - intros e ->. split; [reflexivity|]. cbn [snd log].
    rewrite compressCalls_app. cbn. lia.
Qed.

Lemma example_always_reports_witness :
  let r := runExample exactRnd tickClock (inl (newError "no wasm"))
             alternating 5 6 freshWorld in
  (exists report : ExampleReport, fst r = Returned report)
  /\ forall e : JsError,
       inl (newError "no wasm") = @inl JsError ZstdCodec e ->
       fst r
       = Returned
           (ErrorReported ("Failed to initialize ZSTD: " ++ errMessage e))
       /\ compressCalls (log (snd r)) = compressCalls (log freshWorld).
Proof.
  apply (example_always_reports exactRnd tickClock (inl (newError "no wasm"))
           alternating 5 6 freshWorld).
  - lia.
  - cbn. lia.
Defined.

Lemma compress_keeps_codec_dictionary (rnd : Q -> Q) (perf_now : nat -> Q)
    (fuel : nat) (data : bytes) (options : CompressionOptions)
    (cb : option Callback) (w : World) :
  let r := compressWithProgress rnd perf_now fuel data options cb w in
  codec (self (snd r)) = codec (self w)
  /\ dictionary (self (snd r)) = dictionary (self w).
Proof.
  intros r. subst r. rewrite compress_self.
  destruct (fst (compressWithProgress _ _ _ _ _ _ _)); split; reflexivity.
Qed.

Lemma verifies_itself (sample : bytes) : verifies sample sample = true.
Proof.
  unfold verifies, jsEvery. apply (everyFrom_prefix sample sample 0).
  exists []. cbn [skipn]. now rewrite app_nil_r.
Qed.

(** What [decompress] hands to the codec in the example, and what it
    returns, after a compression that returned. *)
Lemma example_decompress (rnd : Q -> Q) (perf_now : nat -> Q) (fuel : nat)
    (c : ZstdCodec) (sample compressed : bytes) (w w2 : World) :
  compressWithProgress rnd perf_now fuel sample exampleOptions
    (Some exampleCallback) (afterSetup c sample w) = (Returned compressed, w2) ->
  fst (decompress rnd perf_now compressed (Some true)
         (appendLog w2 [ConsoleLog "Compression completed. Metrics:" None]))
  = match ZstdStream_decompress c compressed
            (DictPassed (Some (dictionaryOf sample))) with
    | inr out => Returned out
    | inl e => Thrown (newError ("Decompression failed: " ++ errMessage e))
    end.
Proof.
  intros Hrun.
  destruct (compress_keeps_codec_dictionary rnd perf_now fuel sample
              exampleOptions (Some exampleCallback) (afterSetup c sample w))
    as [Hc Hd].
  rewrite Hrun in Hc, Hd. cbn [snd afterSetup self codec dictionary
    setDictionary setCodec] in Hc, Hd.
  assert (Hc' : codec (self (appendLog w2
                  [ConsoleLog "Compression completed. Metrics:" None]))
                = Some c) by exact Hc.
  rewrite (decompress_eq rnd perf_now compressed (Some true) _ Hc').
  cbn [withDefault dictArgOf]. rewrite self_appendLog, Hd.
  destruct (ZstdStream_decompress c compressed _); reflexivity.
Qed.

(** X19. With a library that loads, whose stream compressor never throws
    and whose frames are self-delimiting at level 9, the example reports a
    successful verification, whatever the sample drawn. *)
Theorem example_succeeds :
  forall (rnd : Q -> Q) (perf_now : nat -> Q) (c : ZstdCodec)
         (random : nat -> Q) (dataSize : Z) (fuel : nat) (w : World),
    0 <= dataSize ->
    (Z.to_nat dataSize < fuel)%nat ->
    (forall chunk d,
        exists cc, ZstdStream_compress c chunk 9 true d = inr cc) ->
    (forall d, codecSelfDelimiting c 9 d) ->
    fst (runExample rnd perf_now (inr c) random dataSize fuel w)
    = Returned (Verification true).
Proof.
  intros rnd perf_now c random dataSize fuel w H0 Hfuel Hstream Hdelim.
  rewrite runExample_eq by assumption. cbv zeta.
  set (sample := sampleOf random (Z.to_nat dataSize)).
  destruct (compress_stream_total rnd perf_now fuel sample exampleOptions
              (Some exampleCallback) (afterSetup c sample w) c)
    as [out Hout]; try reflexivity.
  { unfold sample. now rewrite sampleOf_length. }
  { exact Hstream. }
  { intros f q n Hf. injection Hf as <-. reflexivity. }
  destruct (compressWithProgress _ _ _ _ _ _ _) as [o w2] eqn:Hrun.
  cbn [fst] in Hout. subst o.
  pose proof (example_decompress rnd perf_now fuel c sample out w w2 Hrun)
    as Hdec.
  assert (Hs : streaming exampleOptions = true) by reflexivity.
  assert (Hcs : 0 < chunkSizeOf exampleOptions) by reflexivity.
  destruct (compress_stream_returned _ _ _ _ _ _ _ Hs Hrun)
    as (c' & ccs & Hc' & Hccs & Hloop & _).
  injection Hc' as <-.
  pose proof (loopRun_compressed _ _ _ _ _ _ _ _ _ Hloop) as Hall.
  apply Hdelim in Hall. rewrite <- Hccs in Hall.
  destruct (loopRun_chunks rnd sample exampleOptions (Some exampleCallback)
              (afterSetup c sample w) c ccs Hcs Hloop) as [Hcat _].
  rewrite Hcat in Hall. clear Hcat.
  cbn [usesDictionary exampleOptions useDictionary withDefault dictArgOf
       afterSetup self dictionary setDictionary] in Hall.
  rewrite Hall in Hdec.
  destruct (decompress _ _ _ _ _) as [o w3]. cbn [fst] in Hdec. subst o.
  now rewrite verifies_itself.
Qed.

Lemma example_succeeds_witness :
  fst (runExample exactRnd tickClock (inr storeCodec) alternating 5 6
         freshWorld)
  = Returned (Verification true).
Proof.
  apply (example_succeeds exactRnd tickClock storeCodec alternating 5 6
           freshWorld).
  - lia.
  - cbn. lia.
  - intros chunk d. exists chunk. reflexivity.
  - intros d. apply storeCodec_self_delimiting.
Defined.

Lemma afterSetup_eq (c : ZstdCodec) (sample : bytes) (w : World) :
  snd (createDictionary sample
         (snd (init (inr c) (mkWorld newZstdProcessor (clock w) (log w)))))
  = afterSetup c sample w.
Proof. now rewrite init_eq, createDictionary_eq. Qed.

(** X20. The example reports the verdict [isValid] exactly when the
    library loads, the compression of the sample (on the new processor,
    after [init] and [createDictionary]) returns some bytes, the codec's
    stream decompressor, given these bytes and the dictionary of the
    sample, returns some bytes, and [isValid] says whether these are a
    beginning of the sample.  The verdict does not say whether they are the
    sample: a decompressor that returns too few bytes, or none, is reported
    as a success. *)
Theorem example_verdict_is_prefix_test :
  forall (rnd : Q -> Q) (perf_now : nat -> Q)
         (ZstdInit : JsError + ZstdCodec) (random : nat -> Q) (dataSize : Z)
         (fuel : nat) (w : World) (isValid : bool),
    0 <= dataSize ->
    (Z.to_nat dataSize < fuel)%nat ->
    let sample := sampleOf random (Z.to_nat dataSize) in
    fst (runExample rnd perf_now ZstdInit random dataSize fuel w)
    = Returned (Verification isValid)
    <-> exists (c : ZstdCodec) (compressed decompressed : bytes),
          ZstdInit = inr c
          /\ fst (compressWithProgress rnd perf_now fuel sample exampleOptions
                   (Some exampleCallback)
                   (snd (createDictionary sample
                           (snd (init (inr c)
                                   (mkWorld newZstdProcessor (clock w)
                                      (log w)))))))
             = Returned compressed
          /\ ZstdStream_decompress c compressed
               (DictPassed (Some (dictionaryOf sample))) = inr decompressed
          /\ (isValid = true <-> prefixOf decompressed sample).
Proof.
  intros rnd perf_now ZstdInit random dataSize fuel w isValid H0 Hfuel sample.
  rewrite runExample_eq by assumption.
  assert (Hverdict : forall decompressed : bytes,
             verifies decompressed sample = true
             <-> prefixOf decompressed sample).
  { intros decompressed. unfold verifies, jsEvery, prefixOf.
    exact (everyFrom_prefix sample decompressed 0). }
  split.
  - intros Hrun.
    destruct ZstdInit as [e|c]; [discriminate Hrun|]. cbv zeta in Hrun.
    fold sample in Hrun.
    destruct (compressWithProgress _ _ _ _ _ _ _) as [[compressed|e|] w2]
      eqn:Hcompress; try discriminate Hrun.
    pose proof (example_decompress rnd perf_now fuel c sample compressed w w2
                  Hcompress) as Hdec.
    destruct (decompress _ _ _ _ _) as [[decompressed|e|] w3];
      try discriminate Hrun.
    cbn [fst] in Hrun, Hdec. injection Hrun as <-.
    exists c, compressed, decompressed. split; [reflexivity|].
    rewrite afterSetup_eq, Hcompress. split; [reflexivity|].
    destruct (ZstdStream_decompress c compressed _) as [e|out];
      [discriminate Hdec|].
    injection Hdec as <-. split; [reflexivity|]. apply Hverdict.
  - intros (c & compressed & decompressed & -> & Hcompress & Hcodec & Hiff).
    cbv zeta. fold sample. rewrite afterSetup_eq in Hcompress.
    destruct (compressWithProgress _ _ _ _ _ _ _) as [o w2] eqn:Hrun.
    cbn [fst] in Hcompress. subst o.
    pose proof (example_decompress rnd perf_now fuel c sample compressed w w2
                  Hrun) as Hdec.
    rewrite Hcodec in Hdec.
    destruct (decompress _ _ _ _ _) as [o w3]. cbn [fst] in Hdec. subst o.
    cbn [fst]. do 2 f_equal.
    rewrite <- Hverdict in Hiff.
    destruct isValid, (verifies decompressed sample); try reflexivity.
    + now apply Hiff.
    + symmetry. now apply Hiff.
Qed.

(** With the marker codec on a sample of five bytes the example reports a
    success, and the bytes its verification saw are those the codec's
    decompressor returned for the output of the compression. *)
Lemma example_verdict_is_prefix_test_witness :
  let sample := sampleOf alternating (Z.to_nat 5) in
  exists (c : ZstdCodec) (compressed decompressed : bytes),
    @inr JsError ZstdCodec markerCodec = inr c
    /\ fst (compressWithProgress exactRnd tickClock 9 sample exampleOptions
             (Some exampleCallback)
             (snd (createDictionary sample
                     (snd (init (inr c)
                             (mkWorld newZstdProcessor (clock freshWorld)
                                (log freshWorld)))))))
       = Returned compressed
    /\ ZstdStream_decompress c compressed
         (DictPassed (Some (dictionaryOf sample))) = inr decompressed
    /\ (true = true <-> prefixOf decompressed sample).
Proof.
  apply (proj1 (example_verdict_is_prefix_test exactRnd tickClock
                  (inr markerCodec) alternating 5 9 freshWorld true
                  ltac:(lia) ltac:(cbn; lia))).
  reflexivity.
Defined.

(** ** The dictionary a call uses *)

(** X21. The dictionary is read when a call is made, not when it was
    created for some data: after two calls of [createDictionary], a
    [decompress] with [useDictionary] hands the codec the dictionary of the
    second sample (an empty array for an empty sample, not [null]),
    whatever was stored before; without the flag it hands no dictionary. *)
Theorem decompress_uses_stored_dictionary :
  forall (rnd : Q -> Q) (perf_now : nat -> Q) (compressedData : bytes)
         (sample1 sample2 : bytes) (w : World) (c : ZstdCodec),
    codec (self w) = Some c ->
    let w2 := snd (createDictionary sample2
                     (snd (createDictionary sample1 w))) in
    log (snd (decompress rnd perf_now compressedData (Some true) w2))
    = log w2
      ++ [StreamDecompressCall compressedData
            (DictPassed (Some (dictionaryOf sample2)))]
    /\ log (snd (decompress rnd perf_now compressedData None w2))
       = log w2 ++ [StreamDecompressCall compressedData DictOmitted]
    /\ dictionary (self (snd (createDictionary [] w))) = Some [].
Proof.
  intros rnd perf_now compressedData sample1 sample2 w c Hc w2.
  assert (Hc2 : codec (self w2) = Some c).
  { subst w2. now rewrite !createDictionary_eq. }
  assert (Hd2 : dictionary (self w2) = Some (dictionaryOf sample2)).
  { subst w2. now rewrite !createDictionary_eq. }
  rewrite !(decompress_eq rnd perf_now compressedData _ w2 Hc2).
  cbn [withDefault dictArgOf]. rewrite Hd2.
  split; [|split; [|reflexivity]];
    destruct (ZstdStream_decompress c compressedData _); reflexivity.
Qed.

Lemma decompress_uses_stored_dictionary_witness :
  let w2 := snd (createDictionary []
                   (snd (createDictionary [x01; x02]
                           (readyWorld storeCodec)))) in
  log (snd (decompress exactRnd tickClock [x07] (Some true) w2))
  = log w2 ++ [StreamDecompressCall [x07] (DictPassed (Some (dictionaryOf [])))]
  /\ log (snd (decompress exactRnd tickClock [x07] None w2))
     = log w2 ++ [StreamDecompressCall [x07] DictOmitted]
  /\ dictionary (self (snd (createDictionary [] (readyWorld storeCodec))))
     = Some [].
Proof.
  apply (decompress_uses_stored_dictionary exactRnd tickClock [x07]
           [x01; x02] [] (readyWorld storeCodec) storeCodec).
  reflexivity.
Defined.
